(** * ExaMol selection core: [examol/select/base.py]

    A shallow embedding of the score aggregator [_extract_observations],
    of the base class [Selector] and of [RankingSelector], followed by the
    properties of the gather/dispense protocol.  Two functions of the
    callers' side follow: [convert_string_to_dict] of [examol/score/nfp.py]
    and [ASESimulator.create_configuration] of
    [examol/simulate/ase/__init__.py].

    Conventions of the embedding.
    - [float] values (samples, scores, looked-up properties) are represented
      by integers: the properties below use only the order of the values and
      their exact negation, which finite floats share with [Z].  NaN is not
      represented.
    - A NumPy array is an object in a store, named by a location; its value is
      a shape and the row-major list of its items.
    - A method is a computation over the world (the selector object and the
      array store) that returns a value or raises; the world it leaves behind
      is kept in both cases, as Python keeps the writes made before a raise. *)

From stdpp Require Import base list sorting strings pretty.
From Stdlib Require Import ZArith Lia Permutation.

(** ** Exceptions and computations *)

Inductive exn :=
  | ValueError (msg : string)
  | IndexError (msg : string)
  | NotImplementedError
  | InvalidReference.  (* a location outside the store: no Python expression denotes one *)

Inductive outcome (A : Type) :=
  | Return (a : A)
  | Raise (e : exn).
Arguments Return {A} a.
Arguments Raise {A} e.

Definition M (W A : Type) : Type := W → outcome A * W.

Definition ret {W A} (a : A) : M W A := λ w, (Return a, w).
Definition raise {W A} (e : exn) : M W A := λ w, (Raise e, w).
Definition bind {W A B} (c : M W A) (k : A → M W B) : M W B :=
  λ w, match c w with
       | (Return a, w') => k a w'
       | (Raise e, w') => (Raise e, w')
       end.
Definition gets {W A} (f : W → A) : M W A := λ w, (Return (f w), w).
Definition modify {W} (f : W → W) : M W unit := λ w, (Return tt, f w).
Definition lift {W A} (o : outcome A) : M W A := λ w, (o, w).

Declare Scope comp_scope.
Delimit Scope comp_scope with comp.
Bind Scope comp_scope with M.
Notation "x <- c1 ;; c2" := (bind c1 (λ x, c2))
  (at level 100, c1 at next level, c2 at level 200, right associativity) : comp_scope.
Notation "c1 ;; c2" := (bind c1 (λ _, c2))
  (at level 100, c2 at level 200, right associativity) : comp_scope.
Open Scope comp_scope.

(** [if cond: body] *)
Definition when {W} (cond : bool) (body : M W unit) : M W unit :=
  if cond then body else ret tt.

(** [for x in l: body(x)] *)
Fixpoint for_each {W A} (l : list A) (body : A → M W unit) : M W unit :=
  match l with
  | [] => ret tt
  | x :: l' => body x ;; for_each l' body
  end.

(** [enumerate(l)], counting from [n] *)
Fixpoint enumerate_from {A} (n : nat) (l : list A) : list (nat * A) :=
  match l with
  | [] => []
  | x :: l' => (n, x) :: enumerate_from (S n) l'
  end.
Definition enumerate {A} (l : list A) : list (nat * A) := enumerate_from 0 l.

(** [all(l)] on a list of booleans *)
Definition all (l : list bool) : bool := forallb id l.

(** ** NumPy arrays *)

Record ndarray := NDArray { shape : list nat; data : list Z }.

Definition ndim (a : ndarray) : nat := length (shape a).

(** number of items of an array of the given shape *)
Definition size_of (shp : list nat) : nat := foldr Nat.mul 1 shp.

(** [a[i, j, k]] of a 3-dimensional array *)
Definition item3 (a : ndarray) (i j k : nat) : option Z :=
  match shape a with
  | [_; s1; s2] => data a !! (i * (s1 * s2) + j * s2 + k)
  | _ => None
  end.

(** The items of [a[i, :, :] *= c]: the block of index [i] along axis 0 is
    scaled, the other items stay. *)
Definition imul_axis0 (i : nat) (c : Z) (a : ndarray) : ndarray :=
  let blk := size_of (tail (shape a)) in
  NDArray (shape a)
    (imap (λ idx v, if bool_decide (i * blk ≤ idx < (i + 1) * blk)
                    then (v * c)%Z else v) (data a)).

(** [np.array(rows)] for a list of equally long rows of floats.  An empty list
    gives a 1-dimensional array of shape [(0,)]. *)
Definition np_array (rows : list (list Z)) : ndarray :=
  match rows with
  | [] => NDArray [0] []
  | r :: _ => NDArray [length rows; length r] (concat rows)
  end.

(** ** The world: one selector object and the array store *)

Definition loc := nat.

Record world (S : Type) := World { self : S; arrays : list ndarray }.
Arguments World {S} self arrays.
Arguments self {S} w.
Arguments arrays {S} w.

Section ArrayOps.
Context {S : Type}.

Definition with_self (f : S → S) (w : world S) : world S :=
  World (f (self w)) (arrays w).

(** the value of the array at [r] *)
Definition np_read (r : loc) : M (world S) ndarray :=
  λ w, match arrays w !! r with
       | Some a => (Return a, w)
       | None => (Raise InvalidReference, w)
       end.

(** [r.shape] and [r.ndim] *)
Definition np_shape (r : loc) : M (world S) (list nat) :=
  a <- np_read r ;; ret (shape a).
Definition np_ndim (r : loc) : M (world S) nat :=
  a <- np_read r ;; ret (ndim a).

(** [shp[i]] on the shape tuple *)
Definition tuple_index (shp : list nat) (i : nat) : M (world S) nat :=
  match shp !! i with
  | Some n => ret n
  | None => raise (IndexError "tuple index out of range")
  end.

(** [r.copy()]: a new array with the same items *)
Definition np_copy (r : loc) : M (world S) loc :=
  a <- np_read r ;;
  λ w, (Return (length (arrays w)), World (self w) (arrays w ++ [a])).

(** [r[i, :, :] *= c], in place *)
Definition np_imul_axis0 (r : loc) (i : nat) (c : Z) : M (world S) unit :=
  a <- np_read r ;;
  if bool_decide (ndim a < 3) then
    raise (IndexError ("too many indices for array: array is " +:+ pretty (ndim a) +:+
                       "-dimensional, but 3 were indexed"))
  else if bool_decide (hd 0 (shape a) ≤ i) then
    raise (IndexError ("index " +:+ pretty i +:+ " is out of bounds for axis 0 with size "
                       +:+ pretty (hd 0 (shape a))))
  else
    λ w, (Return tt, World (self w) (<[r := imul_axis0 i c a]> (arrays w))).
End ArrayOps.

(** ** [heapq.nlargest] *)

(** [sorted(l, key=key, reverse=True)]: descending in [key], items of equal
    key in their original order. *)
Fixpoint insert_desc {A} (key : A → Z) (x : A) (l : list A) : list A :=
  match l with
  | [] => [x]
  | y :: l' => if (key y <=? key x)%Z then x :: y :: l'
               else y :: insert_desc key x l'
  end.
Definition sorted_reverse {A} (key : A → Z) (l : list A) : list A :=
  foldr (insert_desc key) [] l.

(** [heapq.nlargest(n, l, key=key)], which the library documents as
    [sorted(l, key=key, reverse=True)[:n]]; a count [n <= 0] gives []. *)
Definition nlargest {A} (n : Z) (key : A → Z) (l : list A) : list A :=
  take (Z.to_nat n) (sorted_reverse key l).

(** [x] may stand before [y] in a list of descending keys. *)
Definition descending {A} (key : A → Z) (x y : A) : Prop := (key y ≤ key x)%Z.

(** [chosen] is a selection of the [n] best of [pool]: as many as asked for,
    or the whole pool if it is smaller; in descending order; and no item left
    out has a larger key than a chosen one. *)
Definition best_of {A} (key : A → Z) (n : nat) (pool chosen : list A) : Prop :=
  length chosen = n `min` length pool
  ∧ StronglySorted (descending key) chosen
  ∧ ∃ rest, pool ≡ₚ chosen ++ rest
            ∧ ∀ x y, x ∈ chosen → y ∈ rest → (key y ≤ key x)%Z.

(** ** The score aggregator *)

Section Aggregator.
(** [MoleculeRecord] and [PropertyRecipe] live in [examol.store]; the
    aggregator uses only [recipe.lookup(record)], a float or [None]. *)
Context {MoleculeRecord : Type}.

Record PropertyRecipe := { lookup : MoleculeRecord → option Z }.

(** [database.values()] of a dict, in iteration order *)
Definition values (database : list (string * MoleculeRecord)) : list MoleculeRecord :=
  database.*2.

(** A row is appended only when every lookup gave a value, so the default
    of the row comprehension is never taken. *)
Definition _extract_observations (database : list (string * MoleculeRecord))
    (recipes : list PropertyRecipe) : ndarray :=
  let output :=
    foldl (λ output record,
             if negb (all ((λ recipe, bool_decide (lookup recipe record ≠ None)) <$> recipes))
             then output
             else output ++ [(λ recipe, default 0%Z (lookup recipe record)) <$> recipes])
          [] (values database) in
  np_array output.
End Aggregator.
Arguments PropertyRecipe : clear implicits.

(** ** [class Selector] *)

(** The attributes the base class keeps on [self]. *)
Class SelectorAttrs (S : Type) := {
  get_gathering : S → bool;
  set_gathering : bool → S → S;
}.

(** What a subclass declares or overrides; a call through [self] dispatches
    to these. *)
Class SelectorMethods (K S : Type) := {
  self_multiobjective : bool;
  self_start_gathering : M (world S) unit;
  self__add_possibilities : list K → loc → M (world S) unit;
  self__dispense : M (world S) (list (K * Z));
}.

Definition objectives_message (n : nat) : string :=
  "Provided " +:+ pretty n +:+
  " objectives but the class does not support multi-objective selection".

Definition dimension_message (n : nat) : string :=
  "Expected samples dimension of 3. Found " +:+ pretty n +:+
  ". Array should be (recipe, records, model)".

Definition keys_message (n_keys n_samples : nat) : string :=
  "Number of keys and number of samples differ. Keys=" +:+ pretty n_keys +:+
  ". Samples=" +:+ pretty n_samples.

Module Selector.
Section Attrs.
Context {S : Type} {A : SelectorAttrs S}.

(** [Selector.start_gathering], the base implementation *)
Definition start_gathering : M (world S) unit :=
  modify (with_self (set_gathering true)).
End Attrs.

Section Methods.
Context {K S : Type} {A : SelectorAttrs S} {C : SelectorMethods K S}.

Definition add_possibilities (keys : list K) (samples : loc) : M (world S) unit :=
  (* Test for error conditions *)
  shp <- np_shape samples ;;
  s0 <- tuple_index shp 0 ;;
  when (bool_decide (1 < s0) && negb self_multiobjective)
       (raise (ValueError (objectives_message s0))) ;;
  nd <- np_ndim samples ;;
  when (bool_decide (nd ≠ 3))
       (raise (ValueError (dimension_message nd))) ;;
  s1 <- tuple_index shp 1 ;;
  when (bool_decide (s1 ≠ length keys))
       (raise (ValueError (keys_message (length keys) s1))) ;;
  (* Do the work *)
  g <- gets (λ w, get_gathering (self w)) ;;
  when (negb g) self_start_gathering ;;
  self__add_possibilities keys samples.

Definition update : M (world S) unit := ret tt.

(** [list(self.dispense())].  [dispense] is a generator: its body, the
    write to [gathering] included, runs when the iterator is advanced;
    the whole iteration is one computation here. *)
Definition dispense : M (world S) (list (K * Z)) :=
  modify (with_self (set_gathering false)) ;;
  self__dispense.
End Methods.
End Selector.

(** ** [class RankingSelector(Selector)] *)

(** [maximize: bool | Sequence[bool]] *)
Inductive maximize_t :=
  | MaxAll (b : bool)
  | MaxEach (flags : list bool).

Record ranking_state (K : Type) := RankingState {
  to_select : Z;
  gathering : bool;
  _options : list (K * Z);
  maximize : maximize_t;
}.
Arguments RankingState {K} to_select gathering _options maximize.
Arguments to_select {K} r.
Arguments gathering {K} r.
Arguments _options {K} r.
Arguments maximize {K} r.

(** What a concrete ranking selector supplies: the class attribute
    [multiobjective] and the scoring policy [_assign_score], a function of the
    items of the array it is given (it does not write to it).  In
    [RankingSelector] itself [_assign_score] raises [NotImplementedError]. *)
Class RankingPolicy := {
  multiobjective : bool;
  _assign_score : ndarray → outcome (list Z);
}.

Definition maximize_message (n_objectives n_flags : nat) : string :=
  "Different number of recipes (" +:+ pretty n_objectives +:+
  " and number of maximization selections (" +:+ pretty n_flags +:+ ")".

Module RankingSelector.
Section Ranking.
Context {K : Type} {P : RankingPolicy}.

Definition set_options (o : list (K * Z)) (s : ranking_state K) : ranking_state K :=
  RankingState (to_select s) (gathering s) o (maximize s).

#[global] Instance attrs : SelectorAttrs (ranking_state K) := {
  get_gathering := gathering;
  set_gathering b s := RankingState (to_select s) b (_options s) (maximize s);
}.

Definition _add_possibilities (keys : list K) (samples : loc) : M (world (ranking_state K)) unit :=
  (* Determine user options for minimization *)
  shp <- np_shape samples ;;
  n_objectives <- tuple_index shp 0 ;;
  maximize <- gets (λ w, maximize (self w)) ;;
  maximize <- match maximize with
              | MaxAll b => ret (replicate n_objectives b)
              | MaxEach flags =>
                  if bool_decide (length flags ≠ n_objectives)
                  then raise (ValueError (maximize_message n_objectives (length flags)))
                  else ret flags
              end ;;
  (* Negate, if needed *)
  samples <- (if negb (all maximize) then
                samples <- np_copy samples ;;
                for_each (enumerate maximize)
                  (λ '(i, m), when (negb m) (np_imul_axis0 samples i (-1))) ;;
                ret samples
              else ret samples) ;;
  a <- np_read samples ;;
  score <- lift (_assign_score a) ;;
  modify (with_self (λ s,
    set_options (nlargest (to_select s) snd (_options s ++ zip keys score)) s)).

Definition _dispense : M (world (ranking_state K)) (list (K * Z)) :=
  gets (λ w, _options (self w)).

Definition start_gathering : M (world (ranking_state K)) unit :=
  Selector.start_gathering ;;
  modify (with_self (set_options [])).

#[global] Instance methods : SelectorMethods K (ranking_state K) := {
  self_multiobjective := multiobjective;
  self_start_gathering := start_gathering;
  self__add_possibilities := _add_possibilities;
  self__dispense := _dispense;
}.

(** [RankingSelector(to_select, maximize)]: the attributes are set, then
    [Selector.__init__] calls [self.start_gathering()]. *)
Definition __init__ (to_select : Z) (maximize : maximize_t)
    (store : list ndarray) : world (ranking_state K) :=
  (start_gathering (World (RankingState to_select true [] maximize) store)).2.

Definition add_possibilities := Selector.add_possibilities (K := K) (S := ranking_state K).
Definition dispense := Selector.dispense (K := K) (S := ranking_state K).
Definition update := Selector.update (S := ranking_state K).
End Ranking.
End RankingSelector.

(** ** Concrete ranking selectors, used to run the model *)

(** [RankingSelector] as it stands: no scoring policy, single objective. *)
Definition AbstractRanking : RankingPolicy := {|
  multiobjective := false;
  _assign_score _ := Raise NotImplementedError;
|}.

(** The score of a candidate is the sum of its ensemble over the given
    objectives. *)
Definition candidate_sum (a : ndarray) (objectives : list nat) (j : nat) : Z :=
  match shape a with
  | [_; s1; s2] =>
      foldr Z.add 0%Z
        ((λ i, foldr Z.add 0%Z (take s2 (drop (i * (s1 * s2) + j * s2) (data a))))
           <$> objectives)
  | _ => 0%Z
  end.

(** A single-objective policy: the ensemble sum of objective 0. *)
Definition EnsembleSum : RankingPolicy := {|
  multiobjective := false;
  _assign_score a := Return ((candidate_sum a [0]) <$> seq 0 (default 0 (shape a !! 1)));
|}.

(** A multi-objective policy: the sum over all objectives. *)
Definition ObjectiveSum : RankingPolicy := {|
  multiobjective := true;
  _assign_score a :=
    Return ((candidate_sum a (seq 0 (default 0 (shape a !! 0))))
              <$> seq 0 (default 0 (shape a !! 1)));
|}.

(** ** What a call works with, and how a driver uses a selector *)

(** The flags [_add_possibilities] iterates over: a single boolean stands for
    one flag per objective. *)
Definition objective_flags (mx : maximize_t) (n_objectives : nat) : list bool :=
  match mx with
  | MaxAll b => replicate n_objectives b
  | MaxEach flags => flags
  end.

(** The items left by the negation loop
    [for i, m in enumerate(flags): if not m: a[i, :, :] *= -1]. *)
Definition negate_rows (flags : list bool) (a : ndarray) : ndarray :=
  foldl (λ a '(i, m), if negb m then imul_axis0 i (-1) a else a) a (enumerate flags).

(** A pair with its score negated: the raw value behind a score, or the score
    of a raw value, of an objective that is minimised. *)
Definition flip_score {K} (p : K * Z) : K * Z := (p.1, (- p.2)%Z).

Section Driver.
Context {K : Type} {P : RankingPolicy}.

(** [zip(keys, score)] of one batch: the options the batch contributes. *)
Definition batch_options (mx : maximize_t) (store : list ndarray)
    (batch : list K * loc) : list (K * Z) :=
  match store !! batch.2 with
  | Some a =>
      match _assign_score (negate_rows (objective_flags mx (hd 0 (shape a))) a) with
      | Return score => zip batch.1 score
      | Raise _ => []
      end
  | None => []
  end.

(** Successive [add_possibilities] calls, one per batch. *)
Definition gather (batches : list (list K * loc)) : M (world (ranking_state K)) unit :=
  for_each batches (λ '(keys, samples), RankingSelector.add_possibilities keys samples).

(** The calls a driver makes on a selector. *)
Inductive call :=
  | StartGathering
  | AddPossibilities (keys : list K) (samples : loc)
  | Dispense
  | Update.

Definition perform (c : call) : M (world (ranking_state K)) unit :=
  match c with
  | StartGathering => RankingSelector.start_gathering
  | AddPossibilities keys samples => RankingSelector.add_possibilities keys samples
  | Dispense => _ <- RankingSelector.dispense ;; ret tt
  | Update => RankingSelector.update
  end.

(** The world after a call, whether it returned or raised. *)
Definition after (c : call) (w : world (ranking_state K)) : world (ranking_state K) :=
  (perform c w).2.

Definition reachable (w : world (ranking_state K)) : Prop :=
  ∃ to_select maximize store calls,
    w = foldl (λ w c, after c w) (RankingSelector.__init__ to_select maximize store) calls.

(** The selector left by [start_gathering]. *)
Definition restarted (s : ranking_state K) : ranking_state K :=
  RankingState (to_select s) true [] (maximize s).

(** The world in which the work of [add_possibilities] is done: as it
    is while gathering, restarted after a dispense. *)
Definition entered (w : world (ranking_state K)) : world (ranking_state K) :=
  if gathering (self w) then w else with_self restarted w.

(** The three checks of [Selector.add_possibilities] pass. *)
Definition passes_checks (keys : list K) (a : ndarray) : Prop :=
  ∃ s0 s1 s2, shape a = [s0; s1; s2]
              ∧ (s0 ≤ 1 ∨ multiobjective = true) ∧ s1 = length keys.
End Driver.

(** ** Example arrays and selectors *)

Definition example_store : list ndarray :=
  [ NDArray [1; 1; 1] [10]%Z;               (* 0: the batch {a: 10} *)
    NDArray [1; 2; 1] [20; 5]%Z;            (* 1: the batch {b: 20, c: 5} *)
    NDArray [1; 3; 1] [5; 1; 9]%Z;          (* 2: [[[5], [1], [9]]] *)
    NDArray [2; 3] [5; 1; 9; 4; 2; 7]%Z;    (* 3: two dimensions *)
    NDArray [2; 3; 1] [5; 1; 9; 4; 2; 7]%Z  (* 4: two objectives *)
  ].

(** A single-objective selector that has gathered the batch of array 2 and
    dispensed it. *)
Definition example_dispensed : world (ranking_state string) :=
  foldl (λ w c, after (P := EnsembleSum) c w)
        (RankingSelector.__init__ 2 (MaxAll true) example_store)
        [AddPossibilities ["a"; "b"; "c"] 2; Dispense].

(** A two-objective selector, one flag per objective, that has gathered the
    batch of array 4 and dispensed it. *)
Definition example_dispensed_two : world (ranking_state string) :=
  foldl (λ w c, after (P := ObjectiveSum) c w)
        (RankingSelector.__init__ 1 (MaxEach [true; false]) example_store)
        [AddPossibilities ["a"; "b"; "c"] 4; Dispense].

(** A database whose records are tables from property names to values, and
    the recipe that looks a name up. *)
Definition recipe_of (name : string) : PropertyRecipe (string → option Z) :=
  {| lookup record := record name |}.

Definition example_database : list (string * (string → option Z)) :=
  [ ("C", λ name, if decide (name = "ip") then Some 10%Z else None);
    ("CC", λ name, if decide (name = "ea") then Some 3%Z else None) ].

(** ** [Selector] on its own *)

(** The base class instantiated as it is: [_add_possibilities] and
    [_dispense] raise [NotImplementedError]. *)
Module SelectorBase.
Record state := State { to_select : Z; gathering : bool }.

#[global] Instance attrs : SelectorAttrs state := {
  get_gathering := gathering;
  set_gathering b s := State (to_select s) b;
}.

Definition _add_possibilities {K : Type} (keys : list K) (samples : loc) :
    M (world state) unit :=
  raise NotImplementedError.

Definition _dispense {K : Type} : M (world state) (list (K * Z)) :=
  raise NotImplementedError.

Definition methods (K : Type) : SelectorMethods K state := {|
  self_multiobjective := false;
  self_start_gathering := Selector.start_gathering;
  self__add_possibilities := _add_possibilities;
  self__dispense := _dispense;
|}.

(** [Selector(to_select)] *)
Definition __init__ (to_select : Z) (store : list ndarray) : world state :=
  (Selector.start_gathering (World (State to_select true) store)).2.
End SelectorBase.

(** A batch of three candidates with the same sample, a batch without
    candidates, the negation of [[[5], [1], [9]]], and a 0-dimensional
    array. *)
Definition example_store_edge : list ndarray :=
  [ NDArray [1; 3; 1] [7; 7; 7]%Z;        (* 0: three equal samples *)
    NDArray [1; 0; 1] [];                 (* 1: no candidate *)
    NDArray [1; 3; 1] [-5; -1; -9]%Z;     (* 2: negated samples *)
    NDArray [] [4]%Z                      (* 3: a scalar *)
  ].

(** The rows of the molecules that have a value for every recipe, in the
    order of the database: the values of the recipes, in their order. *)
Definition complete_rows {MoleculeRecord : Type}
    (database : list (string * MoleculeRecord))
    (recipes : list (PropertyRecipe MoleculeRecord)) : list (list Z) :=
  omap (λ record, mapM (λ recipe, lookup recipe record) recipes) (values database).

(** ** [convert_string_to_dict] of [examol/score/nfp.py] *)

(** What the function reads of the graph made by [convert_string_to_nx]:
    [graph.nodes(data=True)] as the nodes with their [atomic_num], and
    [graph.edges(data=True)] as the two ends of each edge with
    [str(d['bond_type'])].  Nodes are atom indices. *)
Record nx_graph := NxGraph {
  nodes : list (Z * Z);
  edges : list (Z * Z * string);
}.

Record mol_dict := MolDict {
  atom : list Z;
  bond : list nat;
  connectivity : ndarray;
}.

Definition bond_types : list string := [""; "AROMATIC"; "DOUBLE"; "SINGLE"; "TRIPLE"].

(** [l.index(x)]: the first position of [x], if any *)
Fixpoint list_index (x : string) (l : list string) : option nat :=
  match l with
  | [] => None
  | y :: l' => if decide (y = x) then Some 0 else S <$> list_index x l'
  end.

(** The order of [np.lexsort((c[:, 1], c[:, 0]))] on rows: by the first
    column, then by the second. *)
Definition row_le (x y : Z * Z) : Prop :=
  (x.1 < y.1)%Z ∨ (x.1 = y.1 ∧ (x.2 ≤ y.2)%Z).

Definition row_leb (x y : Z * Z) : bool :=
  (x.1 <? y.1)%Z || ((x.1 =? y.1)%Z && (x.2 <=? y.2)%Z).

Fixpoint insert_row (x : Z * Z) (l : list (Z * Z)) : list (Z * Z) :=
  match l with
  | [] => [x]
  | y :: l' => if row_leb x y then x :: y :: l' else y :: insert_row x l'
  end.

(** [c[np.lexsort((c[:, 1], c[:, 0])), :]]: the rows in that order, equal
    rows in their original order. *)
Definition lexsort_rows (rows : list (Z * Z)) : list (Z * Z) :=
  foldr insert_row [] rows.

(** [np.array(rows)] for rows [[a, b]] of integers *)
Definition np_array_rows (rows : list (Z * Z)) : ndarray :=
  np_array ((λ row, [row.1; row.2]) <$> rows).

(** [a.max()] of an array that has items *)
Definition array_max (a : ndarray) : option Z :=
  match data a with
  | [] => None
  | x :: l => Some (foldr Z.max x l)
  end.

(** The double quote character *)
Definition double_quote : string := String (Ascii.ascii_of_nat 34) EmptyString.

Definition unconnected_message (mol_string : string) : string :=
  "Problem with unconnected atoms for " +:+ double_quote +:+ mol_string +:+ double_quote.

Section ConvertString.
(** [repr] of a string, used by the message of [list.index], and the
    conversion of [examol.utils.conversions]. *)
Context (repr : string → string) (convert_string_to_nx : string → outcome nx_graph).

(** [list(map(bond_types.index, edge_type))] *)
Fixpoint bond_indices (edge_type : list string) : outcome (list nat) :=
  match edge_type with
  | [] => Return []
  | t :: rest =>
      match list_index t bond_types with
      | None => Raise (ValueError (repr t +:+ " is not in list"))
      | Some i =>
          match bond_indices rest with
          | Return ids => Return (i :: ids)
          | Raise e => Raise e
          end
      end
  end.

(** The body of [convert_string_to_dict] once the graph is made. *)
Definition graph_to_dict (mol_string : string) (graph : nx_graph) : outcome mol_dict :=
  (* Get the atom types *)
  let atom_type_id := (λ node, node.2) <$> nodes graph in
  (* Get the bond types, making the data *)
  let '(connectivity, edge_type) :=
    foldl (λ '(connectivity, edge_type) '(a, b, bond_type),
             (connectivity ++ [(a, b)] ++ [(b, a)],
              edge_type ++ [bond_type] ++ [bond_type]))
          ([], []) (edges graph) in
  match bond_indices edge_type with
  | Raise e => Raise e
  | Return edge_type_id =>
      (* Sort connectivity array by the first column *)
      if bool_decide (0 < size_of (shape (np_array_rows connectivity))) then
        let connectivity := np_array_rows (lexsort_rows connectivity) in
        if bool_decide (array_max connectivity ≠ Some (Z.of_nat (length atom_type_id) - 1)%Z)
        then Raise (ValueError (unconnected_message mol_string))
        else Return (MolDict atom_type_id edge_type_id connectivity)
      else
        Return (MolDict atom_type_id edge_type_id (NDArray [0; 2] []))
  end.

Definition convert_string_to_dict (mol_string : string) : outcome mol_dict :=
  match convert_string_to_nx mol_string with
  | Return graph => graph_to_dict mol_string graph
  | Raise e => Raise e
  end.
End ConvertString.

(** Each edge as the two rows [[a, b]] and [[b, a]], in the order of the
    edges. *)
Definition doubled_rows (edges : list (Z * Z * string)) : list (Z * Z) :=
  flat_map (λ e, [(e.1.1, e.1.2); (e.1.2, e.1.1)]) edges.

(** The last atom is an end of some edge, and no edge names an atom beyond
    it. *)
Definition last_atom_bonded (graph : nx_graph) : Prop :=
  (∀ e, e ∈ edges graph →
     (e.1.1 ≤ Z.of_nat (length (nodes graph)) - 1)%Z
     ∧ (e.1.2 ≤ Z.of_nat (length (nodes graph)) - 1)%Z)
  ∧ ∃ e, e ∈ edges graph
         ∧ (e.1.1 = (Z.of_nat (length (nodes graph)) - 1)%Z
            ∨ e.1.2 = (Z.of_nat (length (nodes graph)) - 1)%Z).

(** An example graph: three atoms in a chain, the bond between atoms 1 and
    2 listed first. *)
Definition example_graph : nx_graph :=
  NxGraph [(0, 6); (1, 6); (2, 8)]%Z [(1, 2, "DOUBLE"); (0, 1, "SINGLE")]%Z.

(** Python's [repr] on the strings used in the examples. *)
Definition example_repr (s : string) : string := "'" +:+ s +:+ "'".

(** A conversion for the examples: acetaldehyde with its edges in the order
    of [example_graph], the same with the edges in the other order, two ions
    without a bond, ethane beside a lone atom, and a bond of a type that
    [bond_types] does not list. *)
Definition example_convert (mol_string : string) : outcome nx_graph :=
  if decide (mol_string = "CC=O") then Return example_graph
  else if decide (mol_string = "O=CC") then
    Return (NxGraph [(0, 6); (1, 6); (2, 8)]%Z [(0, 1, "SINGLE"); (1, 2, "DOUBLE")]%Z)
  else if decide (mol_string = "[Na+].[Cl-]") then
    Return (NxGraph [(0, 11); (1, 17)]%Z [])
  else if decide (mol_string = "CC.[Na]") then
    Return (NxGraph [(0, 6); (1, 6); (2, 11)]%Z [(0, 1, "SINGLE")]%Z)
  else if decide (mol_string = "[Re][Re]") then
    Return (NxGraph [(0, 75); (1, 75)]%Z [(0, 1, "QUADRUPLE")]%Z)
  else Raise (ValueError "not an example").

(** A chain whose second and third bonds have types that [bond_types] does
    not list, and a conversion that returns it. *)
Definition example_unlisted_graph : nx_graph :=
  NxGraph [(0, 6); (1, 75); (2, 75); (3, 75)]%Z
          [(0, 1, "SINGLE"); (1, 2, "QUADRUPLE"); (2, 3, "QUINTUPLE")]%Z.

Definition example_convert_unlisted (mol_string : string) : outcome nx_graph :=
  Return example_unlisted_graph.

(** ** [ASESimulator] of [examol/simulate/ase/__init__.py] *)

(** Strings are taken to hold ASCII characters. *)

(** The newline and the underscore *)
Definition newline : Ascii.ascii := Ascii.ascii_of_nat 10.
Definition underscore : Ascii.ascii := Ascii.ascii_of_nat 95.

(** [s.split(c)] for a separator of one character: at least one part *)
Fixpoint str_split (c : Ascii.ascii) (s : string) : list string :=
  match s with
  | EmptyString => [EmptyString]
  | String x s' =>
      if decide (x = c) then EmptyString :: str_split c s'
      else match str_split c s' with
           | part :: parts => String x part :: parts
           | [] => [String x EmptyString]
           end
  end.

(** [s.count(c)] for one character *)
Fixpoint str_count (c : Ascii.ascii) (s : string) : nat :=
  match s with
  | EmptyString => 0
  | String x s' => (if decide (x = c) then 1 else 0) + str_count c s'
  end.

(** [l[-1]] of a list of strings that is not empty *)
Definition str_last (l : list string) : string := default EmptyString (last l).

(** [s.upper()] *)
Definition char_upper (x : Ascii.ascii) : Ascii.ascii :=
  let n := Ascii.nat_of_ascii x in
  if bool_decide (97 ≤ n ≤ 122) then Ascii.ascii_of_nat (n - 32) else x.

Fixpoint str_upper (s : string) : string :=
  match s with
  | EmptyString => EmptyString
  | String x s' => String (char_upper x) (str_upper s')
  end.

(** [s.replace(old, new)] for [old] that is not empty: the occurrences of
    [old] from the left, without overlap.  [skip] counts the characters of
    an occurrence still to pass. *)
Fixpoint str_replace_from (skip : nat) (old new s : string) : string :=
  match s with
  | EmptyString => EmptyString
  | String x s' =>
      match skip with
      | S skip' => str_replace_from skip' old new s'
      | 0 =>
          if String.prefix old s
          then new +:+ str_replace_from (String.length old - 1) old new s'
          else String x (str_replace_from 0 old new s')
      end
  end.
Definition str_replace (old new s : string) : string := str_replace_from 0 old new s.

(** The lines of a text, each closed by a newline *)
Definition unlines (lines : list string) : string :=
  foldr (λ line text, line +:+ String newline text) EmptyString lines.

(** A [dict] with string keys, in insertion order *)
Fixpoint dict_get {V : Type} (key : string) (d : list (string * V)) : option V :=
  match d with
  | [] => None
  | (k, v) :: d' => if decide (k = key) then Some v else dict_get key d'
  end.

(** [d[key] = v]: the value is replaced where the key stands, or the item is
    added at the end *)
Fixpoint dict_set {V : Type} (key : string) (v : V) (d : list (string * V)) :
    list (string * V) :=
  match d with
  | [] => [(key, v)]
  | (k, v') :: d' => if decide (k = key) then (k, v) :: d' else (k, v') :: dict_set key v d'
  end.

(** [{**d, **more}] *)
Definition dict_merge {V : Type} (d more : list (string * V)) : list (string * V) :=
  foldl (λ d '(k, v), dict_set k v d) d more.

(** What the method takes from Python and from ASE. *)
Class Environment := {
  float : Type;
  float_of_literal : string → float;  (* the float that a literal denotes *)
  float_mul : float → float → float;
  float_neg : float → float;
  float_format : float → string;      (* a float in an f-string *)
  units_Ry : float;                   (* [ase.units.Ry] *)
  Gaussian_command : string;          (* [Gaussian.command] *)
  int_of_string : string → option Z;  (* [int(s)], [None] where it raises *)
  int_error : string → string;        (* the message of that [ValueError] *)
  path_absolute : string → string;    (* [Path(p).absolute()] *)
}.

(** Python values, as far as the configurations hold them *)
#[warnings="-register-all"]
Inductive value `{Environment} :=
  | VNone
  | VBool (b : bool)
  | VInt (z : Z)
  | VFloat (x : float)
  | VStr (s : string)
  | VList (l : list value)
  | VDict (d : list (string * value)).

(** The exceptions of the method; an [assert] that fails raises
    [AssertionError]. *)
Inductive raised :=
  | RaisedValueError (msg : string)
  | RaisedAssertionError (msg : string).

Inductive attempt (A : Type) :=
  | Returned (a : A)
  | Failed (e : raised).
Arguments Returned {A} a.
Arguments Failed {A} e.

Record ASESimulator := {
  cp2k_command : string;
  gaussian_command : string;
  ase_db_path : option string;
  clean_after_run : bool;
}.

Definition separators_message : string :=
  "Detected the wrong number of separators. Names for the XC function and basis set should not include underscores.".

Section Simulator.
Context `{Environment}.

(** Mapping between basis set and a converged cutoff energy *)
Definition _cutoff_lookup : list (string * float) :=
  [ ("TZVP-GTH", float_of_literal "850.");
    ("DZVP-GTH", float_of_literal "600.");
    ("SZV-GTH", float_of_literal "600.") ].

(** Base input file *)
Definition _cp2k_inp : string :=
  unlines [
    "&FORCE_EVAL";
    "&DFT";
    "  &XC";
    "     &XC_FUNCTIONAL BLYP";
    "     &END XC_FUNCTIONAL";
    "  &END XC";
    "  &POISSON";
    "     PERIODIC NONE";
    "     PSOLVER MT";
    "  &END POISSON";
    "  &SCF";
    "    &OUTER_SCF";
    "     MAX_SCF 9";
    "    &END OUTER_SCF";
    "    &OT T";
    "      PRECONDITIONER FULL_ALL";
    "    &END OT";
    "  &END SCF";
    "&END DFT";
    "&SUBSYS";
    "  &TOPOLOGY";
    "    &CENTER_COORDINATES";
    "    &END";
    "  &END";
    "&END FORCE_EVAL" ].

(** Solvent data *)
Definition _solv_data : list (string * (float * float)) :=
  [ ("acn", (float_of_literal "29.4500", float_of_literal "37.5")) ].
Definition _xtb_solv_names : list (string * string) := [ ("acn", "acetonitrile") ].
Definition _gaussian_solv_names : list (string * string) := [ ("acn", "acetonitrile") ].

(** [ASESimulator(cp2k_command, gaussian_command, scratch_dir,
    clean_after_run, ase_db_path, retain_failed)]; [scratch_dir] goes to the
    base class and [retain_failed] is not kept. *)
Definition ASESimulator__init__ (cp2k_command gaussian_command scratch_dir : option string)
    (clean_after_run : bool) (ase_db_path : option string) (retain_failed : bool) :
    ASESimulator := {|
  cp2k_command := default "cp2k_shell" cp2k_command;
  gaussian_command :=
    match gaussian_command with
    | None => Gaussian_command
    | Some command => command +:+ " < PREFIX.com > PREFIX.log"
    end;
  ase_db_path := path_absolute <$> ase_db_path;
  clean_after_run := clean_after_run;
|}.

(** The block put after [&END SCF] for a solvent *)
Definition sccs_block (gamma e0 : float) : string :=
  unlines [
    "&END SCF";
    "&SCCS";
    "  ALPHA " +:+ float_format (float_neg gamma);
    "  BETA 0";
    "  GAMMA " +:+ float_format gamma;
    "RELATIVE_PERMITTIVITY " +:+ float_format e0;
    "DERIVATIVE_METHOD CD3";
    "METHOD ANDREUSSI";
    "&END SCCS" ].

Definition create_configuration (self : ASESimulator) (name xyz : string) (charge : Z)
    (solvent : option string) (kwargs : list (string * value)) : attempt value :=
  if decide (name = "xtb") then
    let kwargs := [("accuracy", VFloat (float_of_literal "0.05"))] in
    match solvent with
    | Some solvent =>
        match dict_get solvent _xtb_solv_names with
        | None => Failed (RaisedValueError ("Solvent not defined: " +:+ solvent))
        | Some solvent_name =>
            Returned (VDict [("name", VStr "xtb");
                             ("kwargs", VDict (dict_set "solvent" (VStr solvent_name) kwargs))])
        end
    | None => Returned (VDict [("name", VStr "xtb"); ("kwargs", VDict kwargs)])
    end
  else if String.prefix "mopac_" name then
    let method := str_last (str_split underscore name) in
    let kwargs := [("method", VStr (str_upper method)); ("task", VStr "1SCF GRADIENTS")] in
    match solvent with
    | Some solvent =>
        match dict_get solvent _solv_data with
        | None => Failed (RaisedValueError ("Solvent not defined: " +:+ solvent))
        | Some (_, e0) =>
            Returned (VDict [("name", VStr "mopac");
                             ("kwargs",
                              VDict (dict_set "task"
                                       (VStr ("1SCF GRADIENTS" +:+ " EPS=" +:+ float_format e0))
                                       kwargs))])
        end
    | None => Returned (VDict [("name", VStr "mopac"); ("kwargs", VDict kwargs)])
    end
  else if String.prefix "gaussian_" name then
    (* Unpack the name *)
    if bool_decide (str_count underscore name ≠ 2) then
      Failed (RaisedValueError separators_message)
    else
      match str_split underscore name with
      | [_; xc; basis] =>
          (* Create additional options *)
          let add_options := [] in
          let add_options :=
            match solvent with
            | Some solvent =>
                dict_set "SCRF"
                  (VStr ("PCM,Solvent=" +:+ default solvent (dict_get solvent _gaussian_solv_names)))
                  add_options
            | None => add_options
            end in
          let add_options := dict_set "scf" (VStr "xqc,MaxConventional=200") add_options in
          (* [xyz.split(newline, maxsplit=2)[0]]: the first part is the same
             with and without [maxsplit] *)
          match int_of_string (hd EmptyString (str_split newline xyz)) with
          | None =>
              Failed (RaisedValueError (int_error (hd EmptyString (str_split newline xyz))))
          | Some n_atoms =>
              let add_options :=
                if bool_decide (50 < n_atoms)%Z
                then dict_set "ioplist" (VList [VStr "2/9=2000"]) add_options
                else add_options in
              (* Build the specification *)
              Returned (VDict [
                ("name", VStr "gaussian");
                ("use_gaussian_opt", VBool (bool_decide (n_atoms ≤ 50)%Z));
                ("kwargs",
                 VDict (dict_merge
                          (dict_merge
                             [("command", VStr (gaussian_command self));
                              ("chk", VStr "gauss.chk");
                              ("basis", VStr basis);
                              ("method", VStr xc);
                              ("charge", VInt charge);
                              ("mult", VInt (Z.abs charge + 1))]
                             add_options)
                          kwargs))])
          end
      (* the unpacking of another number of parts, which two separators
         exclude *)
      | _ => Failed (RaisedValueError "values to unpack")
      end
  else if String.prefix "cp2k_blyp" name then
    (* Get the name the basis set *)
    let basis_set_id := str_last (str_split underscore name) in
    let basis_set_name := str_upper (basis_set_id +:+ "-GTH") in
    (* Get the cutoff *)
    match dict_get basis_set_name _cutoff_lookup with
    | None =>
        Failed (RaisedAssertionError ("Cutoff energy not defined for " +:+ basis_set_name))
    | Some cutoff =>
        (* Add solvent information, if desired *)
        let finish (inp : string) :=
          Returned (VDict [
            ("name", VStr "cp2k");
            ("buffer_size", VFloat (float_of_literal "10.0"));
            ("kwargs",
             VDict [("xc", VNone);
                    ("charge", VInt charge);
                    ("uks", VBool (bool_decide (charge ≠ 0%Z)));
                    ("inp", VStr inp);
                    ("cutoff", VFloat (float_mul cutoff units_Ry));
                    ("max_scf", VInt 10);
                    ("basis_set_file", VStr "GTH_BASIS_SETS");
                    ("basis_set", VStr basis_set_name);
                    ("pseudo_potential", VStr "GTH-BLYP");
                    ("poisson_solver", VNone);
                    ("stress_tensor", VBool false);
                    ("command", VStr (cp2k_command self))])]) in
        match solvent with
        | Some solvent =>
            match dict_get solvent _solv_data with
            | None =>
                Failed (RaisedAssertionError
                          ("Solvent " +:+ solvent +:+ " not defined. Available: "
                           +:+ String.concat ", " (fst <$> _solv_data)))
            | Some (gamma, e0) =>
                finish (str_replace ("&END SCF" +:+ String newline EmptyString)
                          (sccs_block gamma e0) _cp2k_inp)
            end
        | None => finish _cp2k_inp
        end
    end
  else Returned VNone.
(** [v[key]] of a configuration, [None] where it raises *)
Definition value_item (key : string) (v : value) : option value :=
  match v with
  | VDict d => dict_get key d
  | _ => None
  end.
End Simulator.

(** An environment for the examples: a float is kept as the text that
    denotes it. *)
Definition example_environment : Environment := {|
  float := string;
  float_of_literal s := s;
  float_mul x y := x +:+ " * " +:+ y;
  float_neg x := "-" +:+ x;
  float_format x := x;
  units_Ry := "Ry";
  Gaussian_command := "g16 < PREFIX.com > PREFIX.log";
  int_of_string s :=
    if decide (s = "3") then Some 3%Z
    else if decide (s = "60") then Some 60%Z else None;
  int_error s := "invalid literal for int() with base 10: " +:+ example_repr s;
  path_absolute p := "/" +:+ p;
|}.

(** [ASESimulator(gaussian_command='g16')] in that environment *)
Definition example_simulator : ASESimulator :=
  ASESimulator__init__ (H := example_environment) None (Some "g16") None true None true.

(** * Properties *)

(** ** Running a computation *)

Ltac run_step :=
  unfold np_shape, np_ndim, np_read, tuple_index, when, bind, ret, raise,
    gets, modify, lift; simpl.

Lemma bind_return {W A B} (c : M W A) (k : A → M W B) w a w' :
  c w = (Return a, w') → bind c k w = k a w'.
Proof. unfold bind. by intros ->. Qed.

Lemma bind_raise {W A B} (c : M W A) (k : A → M W B) w e w' :
  c w = (Raise e, w') → bind c k w = (Raise e, w').
Proof. unfold bind. by intros ->. Qed.

Lemma np_read_run {St} (w : world St) r a :
  arrays w !! r = Some a → np_read r w = (Return a, w).
Proof. unfold np_read. by intros ->. Qed.

Lemma np_shape_run {St} (w : world St) r a :
  arrays w !! r = Some a → np_shape r w = (Return (shape a), w).
Proof. intros Hr. unfold np_shape. by rewrite (bind_return _ _ w a w) by by apply np_read_run. Qed.

Section BaseValidation.
Context {K S : Type} {A : SelectorAttrs S} {C : SelectorMethods K S}.
Implicit Types (w : world S) (keys : list K) (a : ndarray).

Lemma add_possibilities_dangling w keys r :
  arrays w !! r = None →
  Selector.add_possibilities keys r w = (Raise InvalidReference, w).
Proof.
  intros Hr. unfold Selector.add_possibilities. run_step. by rewrite Hr.
Qed.

Lemma add_possibilities_scalar w keys r a :
  arrays w !! r = Some a → shape a = [] →
  Selector.add_possibilities keys r w
  = (Raise (IndexError "tuple index out of range"), w).
Proof.
  intros Hr Hs. unfold Selector.add_possibilities. run_step.
  by rewrite Hr, Hs.
Qed.

Lemma add_possibilities_objectives w keys r a s0 rest :
  arrays w !! r = Some a → shape a = s0 :: rest →
  1 < s0 → self_multiobjective = false →
  Selector.add_possibilities keys r w
  = (Raise (ValueError (objectives_message s0)), w).
Proof.
  intros Hr Hs H1 Hm. unfold Selector.add_possibilities. run_step.
  rewrite Hr, Hs. simpl. rewrite Hm, bool_decide_eq_true_2 by done. done.
Qed.

Lemma objectives_check_passes s0 :
  s0 ≤ 1 ∨ self_multiobjective = true →
  bool_decide (1 < s0) && negb self_multiobjective = false.
Proof.
  intros [H | H].
  - rewrite bool_decide_eq_false_2 by lia. done.
  - rewrite H. apply andb_false_r.
Qed.

Lemma add_possibilities_dimension w keys r a s0 rest :
  arrays w !! r = Some a → shape a = s0 :: rest →
  s0 ≤ 1 ∨ self_multiobjective = true →
  ndim a ≠ 3 →
  Selector.add_possibilities keys r w
  = (Raise (ValueError (dimension_message (ndim a))), w).
Proof.
  intros Hr Hs H1 Hn. unfold Selector.add_possibilities. run_step.
  rewrite Hr, Hs. simpl. rewrite objectives_check_passes by done.
  rewrite Hr. simpl. rewrite bool_decide_eq_true_2 by done. done.
Qed.

Lemma add_possibilities_keys w keys r a s0 s1 s2 :
  arrays w !! r = Some a → shape a = [s0; s1; s2] →
  s0 ≤ 1 ∨ self_multiobjective = true →
  s1 ≠ length keys →
  Selector.add_possibilities keys r w
  = (Raise (ValueError (keys_message (length keys) s1)), w).
Proof.
  intros Hr Hs H1 Hk. unfold Selector.add_possibilities. run_step.
  rewrite Hr, Hs. simpl. rewrite objectives_check_passes by done.
  rewrite Hr. simpl. unfold ndim. rewrite Hs. simpl.
  rewrite bool_decide_eq_true_2 by done. done.
Qed.

(** A call that passes the three checks does the work: it restarts the
    gathering if the selector is dispensing, then hands over to the
    subclass. *)
Lemma add_possibilities_work w keys r a s0 s1 s2 :
  arrays w !! r = Some a → shape a = [s0; s1; s2] →
  s0 ≤ 1 ∨ self_multiobjective = true →
  s1 = length keys →
  Selector.add_possibilities keys r w
  = (when (negb (get_gathering (self w))) self_start_gathering ;;
     self__add_possibilities keys r) w.
Proof.
  intros Hr Hs H1 Hk. unfold Selector.add_possibilities. run_step.
  rewrite Hr, Hs. simpl. rewrite objectives_check_passes by done.
  rewrite Hr. simpl. unfold ndim. rewrite Hs. simpl.
  rewrite bool_decide_eq_false_2 by (intros ?; done). done.
Qed.
End BaseValidation.

(** ** The negation loop *)

Lemma imul_axis0_shape i c a : shape (imul_axis0 i c a) = shape a.
Proof. done. Qed.

Lemma foldl_negate_shape (l : list (nat * bool)) a :
  shape (foldl (λ a '(i, m), if negb m then imul_axis0 i (-1) a else a) a l) = shape a.
Proof.
  revert a. induction l as [|[i m] l IH]; intros a; simpl; [done|].
  rewrite IH. by destruct m.
Qed.

Lemma negate_rows_shape flags a : shape (negate_rows flags a) = shape a.
Proof. apply foldl_negate_shape. Qed.

Lemma foldl_negate_all_true n flags a :
  all flags = true →
  foldl (λ a '(i, m), if negb m then imul_axis0 i (-1) a else a) a
        (enumerate_from n flags) = a.
Proof.
  revert n a. induction flags as [|m flags IH]; intros n a; simpl; [done|].
  intros [Hm Hall]%andb_true_iff. unfold id in Hm. subst m. simpl. by apply IH.
Qed.

Lemma negate_rows_all_true flags a : all flags = true → negate_rows flags a = a.
Proof. apply foldl_negate_all_true. Qed.

Section Loop.
Context {St : Type}.

Lemma negate_loop (w : world St) r n flags b :
  arrays w !! r = Some b → 3 ≤ ndim b →
  n + length flags ≤ hd 0 (shape b) →
  for_each (enumerate_from n flags)
    (λ '(i, m), when (negb m) (np_imul_axis0 r i (-1))) w
  = (Return tt,
     World (self w)
       (<[r := foldl (λ a '(i, m), if negb m then imul_axis0 i (-1) a else a) b
                     (enumerate_from n flags)]> (arrays w))).
Proof.
  revert w n b. induction flags as [|m flags IH]; intros w n b Hr Hd Hn; simpl.
  - rewrite list_insert_id by done. by destruct w.
  - simpl in Hn. destruct m; simpl.
    + unfold bind at 1. unfold ret at 1. rewrite (IH w (S n) b) by (done || lia). done.
    + unfold bind at 1. unfold np_imul_axis0, np_read, bind. rewrite Hr.
      rewrite bool_decide_eq_false_2 by lia.
      rewrite bool_decide_eq_false_2 by lia.
      rewrite (IH _ (S n) (imul_axis0 n (-1) b)); simpl.
      * by rewrite list_insert_insert_eq.
      * apply list_lookup_insert_eq. by eapply lookup_lt_Some.
      * done.
      * lia.
Qed.
End Loop.

(** ** One call on a ranking selector *)

Section RankingRun.
Context {K : Type} {P : RankingPolicy}.
Implicit Types (w : world (ranking_state K)) (keys : list K) (a : ndarray).

Lemma start_gathering_run w :
  RankingSelector.start_gathering w = (Return tt, with_self restarted w).
Proof. done. Qed.

Lemma dispense_run w :
  RankingSelector.dispense (P := P) w
  = (Return (_options (self w)),
     with_self (λ s, RankingState (to_select s) false (_options s) (maximize s)) w).
Proof. done. Qed.

Lemma entered_arrays w : arrays (entered w) = arrays w.
Proof. unfold entered. by destruct (gathering (self w)). Qed.

Lemma entered_maximize w : maximize (self (entered w)) = maximize (self w).
Proof. unfold entered. by destruct (gathering (self w)). Qed.

Lemma entered_to_select w : to_select (self (entered w)) = to_select (self w).
Proof. unfold entered. by destruct (gathering (self w)). Qed.


Lemma entered_options w :
  _options (self (entered w)) = if gathering (self w) then _options (self w) else [].
Proof. unfold entered. by destruct (gathering (self w)). Qed.

Lemma ranking_add_work w keys r a :
  arrays w !! r = Some a → passes_checks keys a →
  RankingSelector.add_possibilities keys r w
  = RankingSelector._add_possibilities keys r (entered w).
Proof.
  intros Hr (s0 & s1 & s2 & Hs & H0 & H1).
  unfold RankingSelector.add_possibilities.
  rewrite (add_possibilities_work w keys r a s0 s1 s2) by done.
  unfold entered. simpl. unfold bind at 1.
  by destruct (gathering (self w)).
Qed.

Lemma _add_possibilities_mismatch w keys r a flags :
  arrays w !! r = Some a → shape a ≠ [] →
  maximize (self w) = MaxEach flags → length flags ≠ hd 0 (shape a) →
  RankingSelector._add_possibilities keys r w
  = (Raise (ValueError (maximize_message (hd 0 (shape a)) (length flags))), w).
Proof.
  intros Hr Hs Hm Hl. unfold RankingSelector._add_possibilities. run_step.
  rewrite Hr. destruct (shape a) as [|s0 rest] eqn:E; [done|]. simpl.
  rewrite Hm. simpl in Hl. by rewrite bool_decide_eq_true_2.
Qed.

Lemma _add_possibilities_run w keys r a :
  arrays w !! r = Some a → 3 ≤ ndim a →
  length (objective_flags (maximize (self w)) (hd 0 (shape a))) = hd 0 (shape a) →
  RankingSelector._add_possibilities keys r w
  = let flags := objective_flags (maximize (self w)) (hd 0 (shape a)) in
    let store := if all flags then arrays w
                 else arrays w ++ [negate_rows flags a] in
    match _assign_score (negate_rows flags a) with
    | Return score =>
        (Return tt,
         World (RankingSelector.set_options
                  (nlargest (to_select (self w)) snd (_options (self w) ++ zip keys score))
                  (self w)) store)
    | Raise e => (Raise e, World (self w) store)
    end.
Proof.
  intros Hr Hd Hl. unfold RankingSelector._add_possibilities.
  unfold ndim in Hd. destruct (shape a) as [|s0 rest] eqn:Hs; [simpl in Hd; lia|].
  simpl hd in *.
  set (flags := objective_flags (maximize (self w)) s0) in *.
  rewrite (bind_return _ _ w (shape a) w) by by apply np_shape_run.
  rewrite Hs. rewrite (bind_return _ _ w s0 w) by done.
  rewrite (bind_return _ _ w (maximize (self w)) w) by done.
  rewrite (bind_return _ _ w flags w); cycle 1.
  { subst flags. destruct (maximize (self w)) as [b|fl]; simpl in *; [done|].
    by rewrite bool_decide_eq_false_2 by (intros ?; done). }
  cbv zeta. destruct (all flags) eqn:Hall; simpl negb; cbv iota.
  - rewrite (bind_return _ _ w r w) by done.
    rewrite (bind_return _ _ w a w) by by apply np_read_run.
    rewrite negate_rows_all_true by done.
    destruct (_assign_score a) as [score|e] eqn:Hscore.
    + rewrite (bind_return _ _ w score w) by done.
      by destruct w.
    + rewrite (bind_raise _ _ w e w) by done.
      by destruct w.
  - set (w1 := World (self w) (arrays w ++ [a])).
    set (r1 := length (arrays w)).
    assert (Hr1 : arrays w1 !! r1 = Some a).
    { subst w1 r1. simpl. rewrite lookup_app_r by done. by rewrite Nat.sub_diag. }
    set (w2 := World (self w) (arrays w ++ [negate_rows flags a])).
    rewrite (bind_return _ _ w r1 w2); cycle 1.
    { rewrite (bind_return _ _ w r1 w1); cycle 1.
      { unfold np_copy. by rewrite (bind_return _ _ w a w) by by apply np_read_run. }
      rewrite (bind_return _ _ w1 tt w2); [done|].
      unfold enumerate. rewrite (negate_loop w1 r1 0 flags a); simpl.
      - subst w2 r1. f_equal. f_equal. rewrite insert_app_r_alt by done.
        by rewrite Nat.sub_diag.
      - done.
      - unfold ndim. rewrite Hs. simpl in *. lia.
      - rewrite Hs. simpl. lia. }
    assert (Hr2 : arrays w2 !! r1 = Some (negate_rows flags a)).
    { subst w2 r1. simpl. rewrite lookup_app_r by done. by rewrite Nat.sub_diag. }
    rewrite (bind_return _ _ w2 (negate_rows flags a) w2) by by apply np_read_run.
    destruct (_assign_score (negate_rows flags a)) as [score|e] eqn:Hscore.
    + by rewrite (bind_return _ _ w2 score w2) by done.
    + by rewrite (bind_raise _ _ w2 e w2) by done.
Qed.
End RankingRun.

(** ** [sorted] and [nlargest] *)

Section Sorting.
Context {A : Type} (key : A → Z).
Implicit Types (x y : A) (l : list A).

Lemma insert_desc_perm x l : insert_desc key x l ≡ₚ x :: l.
Proof.
  induction l as [|y l IH]; simpl; [done|].
  destruct (key y <=? key x)%Z; [done|].
  rewrite IH. apply Permutation_swap.
Qed.

Lemma sorted_reverse_perm l : sorted_reverse key l ≡ₚ l.
Proof.
  induction l as [|x l IH]; simpl; [done|].
  by rewrite insert_desc_perm, IH.
Qed.

Lemma insert_desc_sorted x l :
  StronglySorted (descending key) l →
  StronglySorted (descending key) (insert_desc key x l).
Proof.
  induction 1 as [|y l Hl IH Hy]; simpl.
  - repeat constructor.
  - destruct (key y <=? key x)%Z eqn:E.
    + apply Z.leb_le in E. constructor; [by constructor|].
      constructor; [done|].
      eapply Forall_impl; [exact Hy|]. unfold descending. intros z Hz. simpl in *. lia.
    + apply Z.leb_gt in E. constructor; [done|].
      rewrite insert_desc_perm. constructor; [|done].
      unfold descending. lia.
Qed.

Lemma sorted_reverse_sorted l : StronglySorted (descending key) (sorted_reverse key l).
Proof.
  induction l as [|x l IH]; simpl; [constructor|]. by apply insert_desc_sorted.
Qed.

Lemma sorted_split n l x y :
  StronglySorted (descending key) l →
  x ∈ take n l → y ∈ drop n l → (key y ≤ key x)%Z.
Proof.
  intros Hl Hx Hy. rewrite <- (take_drop n l) in Hl.
  by apply (StronglySorted_app_1_elem_of _ _ _ x y) in Hl.
Qed.

Lemma sorted_take n l :
  StronglySorted (descending key) l → StronglySorted (descending key) (take n l).
Proof.
  intros Hl. rewrite <- (take_drop n l) in Hl.
  by apply StronglySorted_app_1_l in Hl.
Qed.

Lemma length_nlargest (n : Z) l :
  length (nlargest n key l) = Z.to_nat n `min` length l.
Proof.
  unfold nlargest. by rewrite length_take, sorted_reverse_perm.
Qed.

Lemma nlargest_nonpositive (n : Z) l : (n ≤ 0)%Z → nlargest n key l = [].
Proof.
  intros Hn. unfold nlargest. by replace (Z.to_nat n) with 0 by lia.
Qed.

Lemma nlargest_subseteq (n : Z) l : nlargest n key l ⊆ l.
Proof.
  unfold nlargest. intros x Hx. apply subseteq_take in Hx.
  by rewrite sorted_reverse_perm in Hx.
Qed.

Lemma best_of_nil n : best_of key n [] [].
Proof.
  split; [simpl; lia|]. split; [constructor|].
  exists []. split; [done|]. intros x y Hx. by apply elem_of_nil in Hx.
Qed.

(** Merging a new batch into a best selection and keeping the [n] largest
    gives a best selection of the enlarged pool. *)
Lemma best_of_merge (n : Z) pool chosen batch :
  best_of key (Z.to_nat n) pool chosen →
  best_of key (Z.to_nat n) (pool ++ batch) (nlargest n key (chosen ++ batch)).
Proof.
  intros (Hlen & Hsorted & rest & Hperm & Hdom).
  set (s := sorted_reverse key (chosen ++ batch)).
  assert (Hs : StronglySorted (descending key) s) by apply sorted_reverse_sorted.
  assert (Hps : s ≡ₚ chosen ++ batch) by apply sorted_reverse_perm.
  assert (Hpool : length pool = length chosen + length rest).
  { by rewrite Hperm, length_app. }
  split; [|split].
  - rewrite length_nlargest, !length_app. lia.
  - by apply sorted_take.
  - exists (drop (Z.to_nat n) s ++ rest). split.
    + unfold nlargest. fold s. rewrite app_assoc, take_drop, Hps, Hperm.
      rewrite <- !app_assoc. f_equiv. apply Permutation_app_comm.
    + intros x y Hx [Hy|Hy]%elem_of_app.
      { by apply (sorted_split (Z.to_nat n) s). }
      unfold nlargest in Hx. fold s in Hx.
      destruct (decide (key y ≤ key x)%Z) as [|Hlt]; [done|]. exfalso.
      (* [rest] is inhabited, so [chosen] is full, and all of it beats [x] *)
      assert (Hfull : length chosen = Z.to_nat n).
      { apply list_elem_of_lookup in Hy as [i Hi]. apply lookup_lt_Some in Hi. lia. }
      set (above := λ z, (key x < key z)%Z).
      assert (Hchosen : filter above chosen = chosen).
      { clear -Hdom Hy Hlt. induction chosen as [|z c IH]; [done|].
        rewrite filter_cons_True.
        - f_equal. apply IH. intros x' y' Hx'. apply Hdom. by right.
        - unfold above. specialize (Hdom z y).
          assert (key y ≤ key z)%Z by (apply Hdom; [by left|done]). lia. }
      assert (Hdrop : filter above (drop (Z.to_nat n) s) = []).
      { assert (Hall : ∀ z, z ∈ drop (Z.to_nat n) s → ¬ above z).
        { intros z Hz. unfold above.
          pose proof (sorted_split (Z.to_nat n) s x z Hs Hx Hz). lia. }
        induction (drop (Z.to_nat n) s) as [|z d IH]; [done|].
        rewrite filter_cons_False by (apply Hall; by left).
        apply IH. intros z' Hz'. apply Hall. by right. }
      assert (Hcount : length (filter above s) = length (filter above (take (Z.to_nat n) s))).
      { rewrite <- (take_drop (Z.to_nat n) s) at 1.
        by rewrite filter_app, Hdrop, app_nil_r. }
      assert (length (filter above (take (Z.to_nat n) s)) < length (take (Z.to_nat n) s)).
      { apply (length_filter_lt _ _ x); [done|]. unfold above. lia. }
      assert (length chosen ≤ length (filter above s)).
      { rewrite Hps, filter_app, length_app, Hchosen. lia. }
      pose proof (length_take_le_bound := length_take s (Z.to_nat n)). lia.
Qed.
End Sorting.

(** ** The outcomes of [add_possibilities] on a ranking selector *)

Section RankingOutcomes.
Context {K : Type} {P : RankingPolicy}.
Implicit Types (w : world (ranking_state K)) (keys : list K) (a : ndarray).

(** Either a check of the base class fails and the world is untouched, or
    the checks pass and the subclass works in the entered world. *)
Lemma add_possibilities_cases w keys r :
  (∃ e, RankingSelector.add_possibilities keys r w = (Raise e, w)
        ∧ ∀ a, arrays w !! r = Some a → ¬ passes_checks keys a)
  ∨ (∃ a, arrays w !! r = Some a ∧ passes_checks keys a
          ∧ RankingSelector.add_possibilities keys r w
            = RankingSelector._add_possibilities keys r (entered w)).
Proof.
  destruct (arrays w !! r) as [a|] eqn:Hr.
  2:{ left. eexists. split; [by apply add_possibilities_dangling|]. by intros a. }
  destruct (shape a) as [|s0 rest] eqn:Hs.
  { left. eexists. split; [by eapply add_possibilities_scalar|].
    intros a' [= <-] (? & ? & ? & Hs' & _). congruence. }
  destruct (decide (s0 ≤ 1 ∨ multiobjective = true)) as [H0|H0].
  2:{ left. eexists. split.
      - eapply add_possibilities_objectives; [done..| |].
        + lia.
        + simpl. destruct multiobjective; [|done]. exfalso. apply H0. by right.
      - intros a' [= <-] (? & ? & ? & Hs' & H0' & _).
        rewrite Hs in Hs'. injection Hs' as -> _. done. }
  destruct (decide (ndim a = 3)) as [Hn|Hn].
  2:{ left. eexists. split; [by eapply add_possibilities_dimension|].
      intros a' [= <-] (? & ? & ? & Hs' & _). apply Hn. unfold ndim. by rewrite Hs'. }
  unfold ndim in Hn. rewrite Hs in Hn.
  destruct rest as [|s1 [|s2 [|]]]; simpl in Hn; try lia.
  destruct (decide (s1 = length keys)) as [Hk|Hk].
  2:{ left. eexists. split; [by eapply add_possibilities_keys|].
      intros a' [= <-] (? & ? & ? & Hs' & _ & Hk').
      rewrite Hs in Hs'. injection Hs' as _ -> _. done. }
  right. exists a. split; [done|].
  assert (Hp : passes_checks (P := P) keys a) by (by exists s0, s1, s2).
  split; [done|]. by apply ranking_add_work with a.
Qed.

(** In the entered world either the flag sequence has the wrong length, or
    the policy is run on the sign-adjusted items and, if it returns, the
    scored batch is merged. *)
Lemma _add_possibilities_cases w keys r a :
  arrays w !! r = Some a → passes_checks keys a →
  (∃ flags, maximize (self w) = MaxEach flags ∧ length flags ≠ hd 0 (shape a)
            ∧ RankingSelector._add_possibilities keys r w
              = (Raise (ValueError (maximize_message (hd 0 (shape a)) (length flags))), w))
  ∨ (length (objective_flags (maximize (self w)) (hd 0 (shape a))) = hd 0 (shape a)
     ∧ RankingSelector._add_possibilities keys r w
       = let flags := objective_flags (maximize (self w)) (hd 0 (shape a)) in
         let store := if all flags then arrays w
                      else arrays w ++ [negate_rows flags a] in
         match _assign_score (negate_rows flags a) with
         | Return score =>
             (Return tt,
              World (RankingSelector.set_options
                       (nlargest (to_select (self w)) snd
                          (_options (self w) ++ zip keys score))
                       (self w)) store)
         | Raise e => (Raise e, World (self w) store)
         end).
Proof.
  intros Hr (s0 & s1 & s2 & Hs & _).
  destruct (decide (length (objective_flags (maximize (self w)) (hd 0 (shape a)))
                    = hd 0 (shape a))) as [Hl|Hl].
  - right. split; [done|]. apply _add_possibilities_run; [done| |done].
    unfold ndim. rewrite Hs. simpl. lia.
  - left. destruct (maximize (self w)) as [b|flags] eqn:Hm; simpl in Hl.
    + by rewrite length_replicate in Hl.
    + exists flags. split; [done|]. split; [done|].
      apply _add_possibilities_mismatch; [done| |done..]. by rewrite Hs.
Qed.

(** A call that returns while the selector is gathering merged its batch
    into the retained options and changed nothing else of the selector; the
    store only grew. *)
Lemma add_possibilities_returns w keys r w' :
  gathering (self w) = true →
  RankingSelector.add_possibilities keys r w = (Return tt, w') →
  is_Some (arrays w !! r)
  ∧ _options (self w')
    = nlargest (to_select (self w)) snd
        (_options (self w) ++ batch_options (maximize (self w)) (arrays w) (keys, r))
  ∧ gathering (self w') = true
  ∧ to_select (self w') = to_select (self w)
  ∧ maximize (self w') = maximize (self w)
  ∧ ∃ extra, arrays w' = arrays w ++ extra.
Proof.
  intros Hg Hrun.
  destruct (add_possibilities_cases w keys r) as [(e & He & _)|(a & Hr & Hp & Hadd)].
  { rewrite He in Hrun. discriminate. }
  rewrite Hadd in Hrun. unfold entered in Hrun. rewrite Hg in Hrun.
  destruct (_add_possibilities_cases w keys r a Hr Hp)
    as [(flags & _ & _ & Hf)|(_ & Hf)]; rewrite Hf in Hrun; [discriminate|].
  cbv zeta in Hrun. unfold batch_options. simpl. rewrite Hr.
  destruct (_assign_score _) as [score|e]; [|discriminate].
  injection Hrun as <-. simpl. rewrite Hg. repeat split; [by eexists|].
  destruct (all _); [exists []; by rewrite app_nil_r | by eexists].
Qed.
End RankingOutcomes.

(** ** A gathering round *)

Section Round.
Context {K : Type} {P : RankingPolicy}.
Implicit Types (w : world (ranking_state K)) (batches : list (list K * loc)).

Lemma batch_options_grow mx store extra (b : list K * loc) :
  b.2 < length store →
  batch_options mx (store ++ extra) b = batch_options mx store b.
Proof. intros Hb. unfold batch_options. by rewrite lookup_app_l. Qed.

Lemma pool_grow mx store extra batches :
  Forall (λ b, b.2 < length store) batches →
  concat (batch_options mx (store ++ extra) <$> batches)
  = concat (batch_options mx store <$> batches).
Proof.
  induction 1 as [|b bs Hb _ IH]; [done|].
  rewrite !fmap_cons. cbn [concat]. by rewrite batch_options_grow, IH.
Qed.

(** The retained options stay a best selection of everything gathered. *)
Lemma gather_best batches : ∀ w w1 pool,
  gathering (self w) = true →
  Forall (λ b, b.2 < length (arrays w)) batches →
  best_of snd (Z.to_nat (to_select (self w))) pool (_options (self w)) →
  gather batches w = (Return tt, w1) →
  best_of snd (Z.to_nat (to_select (self w)))
    (pool ++ concat (batch_options (maximize (self w)) (arrays w) <$> batches))
    (_options (self w1)).
Proof.
  induction batches as [|[keys r] bs IH]; intros w w1 pool Hg Hlocs Hbest Hrun.
  - injection Hrun as <-. simpl. by rewrite app_nil_r.
  - unfold gather in Hrun. simpl in Hrun. unfold bind in Hrun.
    destruct (RankingSelector.add_possibilities keys r w) as [[[]|e] w'] eqn:Hadd;
      [|discriminate].
    apply add_possibilities_returns in Hadd
      as (_ & Hopts & Hg' & Hn & Hm & extra & Hstore); [|done].
    apply Forall_cons in Hlocs as [_ Hlocs].
    specialize (IH w' w1 (pool ++ batch_options (maximize (self w)) (arrays w) (keys, r))).
    rewrite Hn, Hm, Hstore, Hopts in IH. rewrite pool_grow in IH by done.
    rewrite fmap_cons. cbn [concat]. rewrite app_assoc. apply IH; [done| | |done].
    + eapply Forall_impl; [exact Hlocs|]. intros b Hb. rewrite length_app. simpl in *. lia.
    + by apply best_of_merge.
Qed.
End Round.

(** C1.  In one gathering round (the selector is gathering and holds no
    option, as [RankingSelector.__init__] and [start_gathering] leave it) with
    a target size [to_select >= 0], after any sequence of successful
    [add_possibilities] calls on arrays of the caller, contributing the pairs
    [pool] in total, [dispense] yields exactly [min(len(pool), to_select)]
    pairs, in descending order of score, and every yielded score is at least
    every score that is not yielded. *)
Theorem dispense_yields_best_gathered {K : Type} {P : RankingPolicy}
    (w0 w1 : world (ranking_state K)) (batches : list (list K * loc)) :
  gathering (self w0) = true → _options (self w0) = [] →
  (0 ≤ to_select (self w0))%Z →
  Forall (λ b, b.2 < length (arrays w0)) batches →
  gather batches w0 = (Return tt, w1) →
  let pool := concat (batch_options (maximize (self w0)) (arrays w0) <$> batches) in
  ∃ yielded,
    (RankingSelector.dispense w1).1 = Return yielded
    ∧ Z.of_nat (length yielded) = Z.min (Z.of_nat (length pool)) (to_select (self w0))
    ∧ StronglySorted (descending snd) yielded
    ∧ ∃ rest, pool ≡ₚ yielded ++ rest
              ∧ ∀ x y, x ∈ yielded → y ∈ rest → (y.2 ≤ x.2)%Z.
Proof.
  intros Hg Ho Hn Hlocs Hrun pool.
  pose proof (gather_best batches w0 w1 [] Hg Hlocs) as Hbest.
  rewrite Ho in Hbest. specialize (Hbest (best_of_nil snd _) Hrun).
  simpl in Hbest. fold pool in Hbest.
  destruct Hbest as (Hlen & Hsorted & rest & Hperm & Hdom).
  exists (_options (self w1)). split; [by rewrite dispense_run|].
  split; [lia|]. split; [done|]. by exists rest.
Qed.

Lemma dispense_yields_best_gathered_witness :
  let w0 := RankingSelector.__init__ (K := string) 2 (MaxAll true)
              [NDArray [1; 1; 1] [10%Z]; NDArray [1; 2; 1] [20%Z; 5%Z]] in
  let batches := [(["a"], 0); (["b"; "c"], 1)] in
  ∃ yielded,
    (RankingSelector.dispense (P := EnsembleSum)
       (gather (P := EnsembleSum) batches w0).2).1 = Return yielded
    ∧ Z.of_nat (length yielded) = 2%Z
    ∧ StronglySorted (descending snd) yielded
    ∧ ∃ rest, [("a", 10%Z); ("b", 20%Z); ("c", 5%Z)] ≡ₚ yielded ++ rest
              ∧ ∀ x y, x ∈ yielded → y ∈ rest → (y.2 ≤ x.2)%Z.
Proof.
  intros w0 batches.
  apply (dispense_yields_best_gathered (P := EnsembleSum) w0
           (gather (P := EnsembleSum) batches w0).2 batches).
  - reflexivity.
  - reflexivity.
  - simpl. lia.
  - repeat constructor.
  - reflexivity.
Defined.

(** ** The checks of [Selector.add_possibilities] *)

(** C6.  On every selector that does not declare multi-objective support,
    [add_possibilities] with a 3-dimensional array whose axis 0 has more than
    one entry raises the [ValueError] of the objective count, whose message
    names that size; the selector and the store are left as they were. *)
Theorem single_objective_gate {K St : Type} {A : SelectorAttrs St}
    {C : SelectorMethods K St} (w : world St) (keys : list K) (r : loc)
    (a : ndarray) (s0 s1 s2 : nat) :
  self_multiobjective = false →
  arrays w !! r = Some a → shape a = [s0; s1; s2] → 1 < s0 →
  Selector.add_possibilities keys r w
  = (Raise (ValueError ("Provided " +:+ pretty s0 +:+
       " objectives but the class does not support multi-objective selection")), w).
Proof.
  intros Hm Hr Hs H1. by apply (add_possibilities_objectives w keys r a s0 [s1; s2]).
Qed.

Lemma single_objective_gate_witness :
  Selector.add_possibilities (C := RankingSelector.methods (P := AbstractRanking))
    ["a"; "b"; "c"] 4 (RankingSelector.__init__ 2 (MaxAll true) example_store)
  = (Raise (ValueError
       "Provided 2 objectives but the class does not support multi-objective selection"),
     RankingSelector.__init__ 2 (MaxAll true) example_store).
Proof.
  apply (single_objective_gate (C := RankingSelector.methods (P := AbstractRanking))
           (RankingSelector.__init__ 2 (MaxAll true) example_store)
           ["a"; "b"; "c"] 4 (NDArray [2; 3; 1] [5; 1; 9; 4; 2; 7]%Z) 2 3 1).
  - reflexivity.
  - reflexivity.
  - reflexivity.
  - lia.
Defined.

(** C3, as the code has it.  The objective count is tested before the
    dimension.  A call whose array has at least one dimension, but not three,
    and passes the objective test (axis 0 has at most one entry, or the
    selector declares multi-objective support) raises the [ValueError] of the
    dimension, whose message reports [ndim]; the keys and the items play no
    part, and the selector and the store are left as they were. *)
Theorem wrong_dimension_rejected {K St : Type} {A : SelectorAttrs St}
    {C : SelectorMethods K St} (w : world St) (keys : list K) (r : loc)
    (a : ndarray) (s0 : nat) (rest : list nat) :
  arrays w !! r = Some a → shape a = s0 :: rest → ndim a ≠ 3 →
  s0 ≤ 1 ∨ self_multiobjective = true →
  Selector.add_possibilities keys r w
  = (Raise (ValueError ("Expected samples dimension of 3. Found " +:+ pretty (ndim a) +:+
       ". Array should be (recipe, records, model)")), w).
Proof.
  intros Hr Hs Hn H0. by apply (add_possibilities_dimension w keys r a s0 rest).
Qed.

Lemma wrong_dimension_rejected_witness :
  Selector.add_possibilities (C := RankingSelector.methods (P := ObjectiveSum))
    ["a"; "b"; "c"] 3 (RankingSelector.__init__ 2 (MaxAll true) example_store)
  = (Raise (ValueError
       "Expected samples dimension of 3. Found 2. Array should be (recipe, records, model)"),
     RankingSelector.__init__ 2 (MaxAll true) example_store).
Proof.
  apply (wrong_dimension_rejected (C := RankingSelector.methods (P := ObjectiveSum))
           (RankingSelector.__init__ 2 (MaxAll true) example_store)
           ["a"; "b"; "c"] 3 (NDArray [2; 3] [5; 1; 9; 4; 2; 7]%Z) 2 [3]).
  - reflexivity.
  - reflexivity.
  - unfold ndim. simpl. lia.
  - right. reflexivity.
Defined.

(** C3 fails as stated: a 2-dimensional array of shape (2, 3) given to a
    single-objective selector raises the error of the objective count, not
    the error of the dimension. *)
Lemma wrong_dimension_counterexample :
  ndim (NDArray [2; 3] [5; 1; 9; 4; 2; 7]%Z) ≠ 3
  ∧ RankingSelector.add_possibilities (P := AbstractRanking)
      ["a"; "b"; "c"] 3 (RankingSelector.__init__ 2 (MaxAll true) example_store)
    = (Raise (ValueError
         "Provided 2 objectives but the class does not support multi-objective selection"),
       RankingSelector.__init__ 2 (MaxAll true) example_store)
  ∧ (RankingSelector.add_possibilities (P := AbstractRanking)
       ["a"; "b"; "c"] 3 (RankingSelector.__init__ 2 (MaxAll true) example_store)).1
    ≠ Raise (ValueError (dimension_message 2)).
Proof.
  split; [unfold ndim; simpl; lia|]. split; [reflexivity|].
  vm_compute. discriminate.
Qed.

(** C7, as the code has it.  The key count is tested last.  For a
    3-dimensional array that passes the objective test, a list of keys whose
    length differs from the size of axis 1 raises the [ValueError] of the key
    count, whose message cites both counts; the selector and the store are
    left as they were. *)
Theorem key_count_mismatch_rejected {K St : Type} {A : SelectorAttrs St}
    {C : SelectorMethods K St} (w : world St) (keys : list K) (r : loc)
    (a : ndarray) (s0 s1 s2 : nat) :
  arrays w !! r = Some a → shape a = [s0; s1; s2] →
  s0 ≤ 1 ∨ self_multiobjective = true →
  s1 ≠ length keys →
  Selector.add_possibilities keys r w
  = (Raise (ValueError ("Number of keys and number of samples differ. Keys=" +:+
       pretty (length keys) +:+ ". Samples=" +:+ pretty s1)), w).
Proof.
  intros Hr Hs H0 Hk. by apply (add_possibilities_keys w keys r a s0 s1 s2).
Qed.

Lemma key_count_mismatch_rejected_witness :
  Selector.add_possibilities (C := RankingSelector.methods (P := AbstractRanking))
    ["a"; "b"] 2 (RankingSelector.__init__ 2 (MaxAll true) example_store)
  = (Raise (ValueError "Number of keys and number of samples differ. Keys=2. Samples=3"),
     RankingSelector.__init__ 2 (MaxAll true) example_store).
Proof.
  apply (key_count_mismatch_rejected (C := RankingSelector.methods (P := AbstractRanking))
           (RankingSelector.__init__ 2 (MaxAll true) example_store)
           ["a"; "b"] 2 (NDArray [1; 3; 1] [5; 1; 9]%Z) 1 3 1).
  - reflexivity.
  - reflexivity.
  - left. lia.
  - simpl. lia.
Defined.

(** C7 fails as stated: two keys with an array of shape (2, 3, 1), whose
    axis 1 has three entries, given to a single-objective selector raise the
    error of the objective count, not the error of the key count. *)
Lemma key_count_mismatch_counterexample :
  RankingSelector.add_possibilities (P := AbstractRanking)
    ["a"; "b"] 4 (RankingSelector.__init__ 2 (MaxAll true) example_store)
  = (Raise (ValueError
       "Provided 2 objectives but the class does not support multi-objective selection"),
     RankingSelector.__init__ 2 (MaxAll true) example_store)
  ∧ (RankingSelector.add_possibilities (P := AbstractRanking)
       ["a"; "b"] 4 (RankingSelector.__init__ 2 (MaxAll true) example_store)).1
    ≠ Raise (ValueError (keys_message 2 3)).
Proof.
  split; [reflexivity|]. vm_compute. discriminate.
Qed.

(** ** Failing calls and the state of the selector *)

(** C4, as the code has it.  A call rejected by a check of the base class
    (objective count, dimension, key count) leaves the selector and the store
    exactly as they were.  The length of a flag sequence is tested later, by
    [RankingSelector._add_possibilities], after the base class has restarted
    the gathering: when it fails while the selector is gathering the state is
    unchanged, and when it fails after a dispense the selector is left
    gathering with an empty list of options. *)
Theorem failed_call_state {K : Type} {P : RankingPolicy}
    (w : world (ranking_state K)) (keys : list K) (r : loc) (a : ndarray) :
  arrays w !! r = Some a →
  (¬ passes_checks keys a →
     ∃ e, RankingSelector.add_possibilities keys r w = (Raise e, w))
  ∧ (passes_checks keys a →
     ∀ flags, maximize (self w) = MaxEach flags → length flags ≠ hd 0 (shape a) →
       RankingSelector.add_possibilities keys r w
       = (Raise (ValueError (maximize_message (hd 0 (shape a)) (length flags))),
          if gathering (self w) then w
          else World (RankingState (to_select (self w)) true [] (maximize (self w)))
                     (arrays w))).
Proof.
  intros Hr. split.
  - intros Hnot.
    destruct (add_possibilities_cases w keys r) as [(e & He & _)|(a' & Hr' & Hp & _)].
    + by exists e.
    + rewrite Hr in Hr'. injection Hr' as <-. done.
  - intros Hp flags Hm Hl. rewrite (ranking_add_work w keys r a) by done.
    rewrite (_add_possibilities_mismatch (entered w) keys r a flags).
    + unfold entered. by destruct (gathering (self w)).
    + by rewrite entered_arrays.
    + destruct Hp as (? & ? & ? & -> & _). done.
    + by rewrite entered_maximize.
    + done.
Qed.

Lemma failed_call_state_witness :
  RankingSelector.add_possibilities (P := ObjectiveSum)
    ["a"; "b"; "c"] 2 example_dispensed_two
  = (Raise (ValueError (maximize_message 1 2)),
     World (RankingState 1 true [] (MaxEach [true; false]))
           (arrays example_dispensed_two)).
Proof.
  refine (proj2 (failed_call_state (P := ObjectiveSum) example_dispensed_two
                   ["a"; "b"; "c"] 2 (NDArray [1; 3; 1] [5; 1; 9]%Z) _)
            _ [true; false] _ _).
  - reflexivity.
  - exists 1, 3, 1. split; [reflexivity|]. split; [left; lia|reflexivity].
  - reflexivity.
  - simpl. lia.
Defined.

(** C4 fails as stated: a two-objective selector with the flags
    [True, False] has dispensed ("c", 2); a batch with one objective passes
    the checks of the base class and fails on the length of the flags, and the
    selector is left gathering, its option gone. *)
Lemma failed_call_state_counterexample :
  gathering (self example_dispensed_two) = false
  ∧ _options (self example_dispensed_two) = [("c", 2%Z)]
  ∧ (RankingSelector.add_possibilities (P := ObjectiveSum)
       ["a"; "b"; "c"] 2 example_dispensed_two).1
    = Raise (ValueError
        "Different number of recipes (1 and number of maximization selections (2)")
  ∧ gathering (self (RankingSelector.add_possibilities (P := ObjectiveSum)
                       ["a"; "b"; "c"] 2 example_dispensed_two).2) = true
  ∧ _options (self (RankingSelector.add_possibilities (P := ObjectiveSum)
                      ["a"; "b"; "c"] 2 example_dispensed_two).2) = [].
Proof. repeat split. Qed.

(** ** Rounds *)

(** C5.  After [dispense] has been consumed, a successful [add_possibilities]
    drops every option retained before: what the next [dispense] yields is
    the [to_select] largest of the scored new batch alone, so every pair it
    yields is a pair of the new batch. *)
Theorem new_round_after_dispense {K : Type} {P : RankingPolicy}
    (w w2 : world (ranking_state K)) (keys : list K) (r : loc) :
  RankingSelector.add_possibilities keys r (RankingSelector.dispense (P := P) w).2
  = (Return tt, w2) →
  ∃ a score,
    arrays w !! r = Some a
    ∧ _assign_score (negate_rows (objective_flags (maximize (self w)) (hd 0 (shape a))) a)
      = Return score
    ∧ (RankingSelector.dispense (P := P) w2).1
      = Return (nlargest (to_select (self w)) snd (zip keys score))
    ∧ ∀ p, p ∈ nlargest (to_select (self w)) snd (zip keys score) → p ∈ zip keys score.
Proof.
  rewrite !dispense_run. simpl. intros Hrun.
  set (w1 := with_self _ w) in Hrun.
  destruct (add_possibilities_cases w1 keys r) as [(e & He & _)|(a & Hr & Hp & Hadd)].
  { rewrite He in Hrun. discriminate. }
  rewrite Hadd in Hrun.
  assert (Hr' : arrays (entered w1) !! r = Some a) by by rewrite entered_arrays.
  destruct (_add_possibilities_cases (entered w1) keys r a Hr' Hp)
    as [(flags & _ & _ & Hf)|(_ & Hf)]; rewrite Hf in Hrun; [discriminate|].
  cbv zeta in Hrun. exists a.
  change (maximize (self (entered w1))) with (maximize (self w)) in Hrun.
  destruct (_assign_score _) as [score|e] eqn:Hscore; [|discriminate].
  exists score. split; [done|]. split; [done|].
  injection Hrun as <-. split; [done|].
  intros p Hp'. by apply nlargest_subseteq in Hp'.
Qed.

Lemma new_round_after_dispense_witness :
  ∃ a score,
    arrays example_dispensed !! 1 = Some a
    ∧ _assign_score (RankingPolicy := EnsembleSum)
        (negate_rows (objective_flags (MaxAll true) (hd 0 (shape a))) a) = Return score
    ∧ (RankingSelector.dispense (P := EnsembleSum)
         (RankingSelector.add_possibilities (P := EnsembleSum) ["b"; "c"] 1
            (RankingSelector.dispense (P := EnsembleSum) example_dispensed).2).2).1
      = Return (nlargest 2 snd (zip ["b"; "c"] score))
    ∧ ∀ p, p ∈ nlargest 2 snd (zip ["b"; "c"] score) → p ∈ zip ["b"; "c"] score.
Proof.
  apply (new_round_after_dispense (P := EnsembleSum) example_dispensed
           (RankingSelector.add_possibilities (P := EnsembleSum) ["b"; "c"] 1
              (RankingSelector.dispense (P := EnsembleSum) example_dispensed).2).2
           ["b"; "c"] 1).
  reflexivity.
Defined.

Section Protocol.
Context {K : Type} {P : RankingPolicy}.
Implicit Types (w : world (ranking_state K)) (keys : list K).

Lemma after_add_checked w keys r a :
  arrays w !! r = Some a → passes_checks keys a →
  after (AddPossibilities keys r) w
  = (RankingSelector._add_possibilities keys r (entered w)).2.
Proof.
  intros Hr Hp. unfold after. simpl. by rewrite (ranking_add_work w keys r a).
Qed.

Lemma after_add_rejected w keys r :
  (∀ a, arrays w !! r = Some a → ¬ passes_checks keys a) →
  after (AddPossibilities keys r) w = w.
Proof.
  intros Hnot. unfold after. simpl.
  destruct (add_possibilities_cases w keys r) as [(e & -> & _)|(a & Hr & Hp & _)].
  - done.
  - by destruct (Hnot a Hr).
Qed.

(** What the work of a call leaves: the selector it started from, with
    other options at most, and a store with at most one more array. *)
Lemma _add_possibilities_leaves w keys r a :
  arrays w !! r = Some a → passes_checks keys a →
  ∃ options extra,
    (RankingSelector._add_possibilities keys r w).2
    = World (RankingSelector.set_options options (self w)) (arrays w ++ extra)
    ∧ length extra ≤ 1
    ∧ (all (objective_flags (maximize (self w)) (hd 0 (shape a))) = true → extra = [])
    ∧ (length (objective_flags (maximize (self w)) (hd 0 (shape a))) = hd 0 (shape a) →
       all (objective_flags (maximize (self w)) (hd 0 (shape a))) = false →
       extra = [negate_rows (objective_flags (maximize (self w)) (hd 0 (shape a))) a]).
Proof.
  intros Hr Hp.
  assert (Hself : ∀ store, World (self w) store
    = World (RankingSelector.set_options (_options (self w)) (self w)) store).
  { intros store. by destruct w as [[]]. }
  destruct (_add_possibilities_cases w keys r a Hr Hp)
    as [(flags & Hm & Hl & ->)|(Hl & ->)].
  - exists (_options (self w)), []. simpl. rewrite app_nil_r, <- Hself.
    split; [by destruct w|]. split; [lia|]. split; [done|].
    intros Hl'. rewrite Hm in Hl'. simpl in Hl'. done.
  - cbv zeta. destruct (all _) eqn:Hall.
    + destruct (_assign_score _) as [score|e].
      * eexists _, []. rewrite app_nil_r. simpl. repeat split; [lia|done].
      * exists (_options (self w)), []. rewrite app_nil_r, <- Hself. simpl.
        repeat split; [lia|done].
    + destruct (_assign_score _) as [score|e].
      * eexists _, [_]. simpl. repeat split; [lia|done].
      * eexists (_options (self w)), [_]. rewrite <- Hself. simpl.
        repeat split; [lia|done].
Qed.
End Protocol.


Lemma example_dispensed_reachable : reachable (P := EnsembleSum) example_dispensed.
Proof. by eexists _, _, _, _. Qed.


(** A rejected call after a dispense: with two keys for three candidates
    the key-count check raises; the flag stays false and the options
    ("c", 9), ("a", 5) of the round before are kept. *)
Lemma rejected_call_after_dispense :
  reachable (P := EnsembleSum) example_dispensed
  ∧ gathering (self example_dispensed) = false
  ∧ (perform (P := EnsembleSum) (AddPossibilities ["a"; "b"] 2) example_dispensed).1
    = Raise (ValueError "Number of keys and number of samples differ. Keys=2. Samples=3")
  ∧ gathering (self (after (P := EnsembleSum) (AddPossibilities ["a"; "b"] 2)
                       example_dispensed)) = false
  ∧ _options (self (after (P := EnsembleSum) (AddPossibilities ["a"; "b"] 2)
                      example_dispensed)) = [("c", 9%Z); ("a", 5%Z)].
Proof.
  split; [apply example_dispensed_reachable|]. repeat split.
Qed.

(** ** The array of the caller *)

(** C10.  [RankingSelector.add_possibilities] writes to no array of the
    caller, whether it returns or raises: every array in the store before
    the call, the samples among them, has the same shape and items after it.
    The store changes by at most one new array; with all flags true it does
    not change at all, and with some flag false the new array is the copy
    that received the negation. *)
Theorem caller_arrays_untouched {K : Type} {P : RankingPolicy}
    (w : world (ranking_state K)) (keys : list K) (r : loc) :
  (∀ r' a, arrays w !! r' = Some a →
     arrays (RankingSelector.add_possibilities keys r w).2 !! r' = Some a)
  ∧ (∃ extra, arrays (RankingSelector.add_possibilities keys r w).2 = arrays w ++ extra
              ∧ length extra ≤ 1)
  ∧ (∀ a, arrays w !! r = Some a →
       all (objective_flags (maximize (self w)) (hd 0 (shape a))) = true →
       arrays (RankingSelector.add_possibilities keys r w).2 = arrays w)
  ∧ (∀ a, arrays w !! r = Some a → passes_checks keys a →
       length (objective_flags (maximize (self w)) (hd 0 (shape a))) = hd 0 (shape a) →
       all (objective_flags (maximize (self w)) (hd 0 (shape a))) = false →
       arrays (RankingSelector.add_possibilities keys r w).2
       = arrays w ++ [negate_rows (objective_flags (maximize (self w)) (hd 0 (shape a))) a]).
Proof.
  destruct (add_possibilities_cases w keys r) as [(e & He & Hnot)|(a & Hr & Hp & Hadd)].
  - rewrite He. simpl. split; [done|].
    split; [exists []; rewrite app_nil_r; split; [done|simpl; lia]|].
    split; [done|]. intros a Hr Hp. by destruct (Hnot a Hr).
  - rewrite Hadd.
    destruct (_add_possibilities_leaves (entered w) keys r a)
      as (options & extra & -> & Hextra & Htrue & Hfalse); [by rewrite entered_arrays|done|].
    simpl. rewrite entered_arrays, entered_maximize in *.
    split; [|split; [by exists extra|split]].
    + intros r' a' Hr'. by apply lookup_app_l_Some.
    + intros a' Hr' Hall. rewrite Hr in Hr'. injection Hr' as <-.
      rewrite Htrue by done. by rewrite app_nil_r.
    + intros a' Hr' _ Hl Hall. rewrite Hr in Hr'. injection Hr' as <-.
      by rewrite Hfalse.
Qed.

Lemma caller_arrays_untouched_witness :
  arrays (RankingSelector.add_possibilities (P := EnsembleSum) ["a"; "b"; "c"] 2
            (RankingSelector.__init__ 2 (MaxAll false) example_store)).2 !! 2
  = Some (NDArray [1; 3; 1] [5; 1; 9]%Z).
Proof.
  apply (proj1 (caller_arrays_untouched (P := EnsembleSum)
                  (RankingSelector.__init__ 2 (MaxAll false) example_store)
                  ["a"; "b"; "c"] 2)).
  reflexivity.
Defined.

(** ** The sign convention *)

Lemma imul_axis0_lookup i c a idx :
  data (imul_axis0 i c a) !! idx
  = (λ v, if bool_decide (i * size_of (tail (shape a)) ≤ idx
                          < (i + 1) * size_of (tail (shape a)))
          then (v * c)%Z else v) <$> data a !! idx.
Proof. unfold imul_axis0. simpl. by rewrite list_lookup_imap. Qed.

(** After the loop, an item of block [i] is negated exactly when the loop
    met a false flag for [i]. *)
Lemma foldl_negate_lookup flags : ∀ n a idx i,
  i * size_of (tail (shape a)) ≤ idx < (i + 1) * size_of (tail (shape a)) →
  data (foldl (λ a '(i, m), if negb m then imul_axis0 i (-1) a else a) a
              (enumerate_from n flags)) !! idx
  = (λ v, if bool_decide (n ≤ i ∧ flags !! (i - n) = Some false)
          then (- v)%Z else v) <$> data a !! idx.
Proof.
  induction flags as [|m flags IH]; intros n a idx i Hidx.
  - cbn [enumerate_from foldl]. rewrite bool_decide_eq_false_2 by (by intros [_ ?]).
    by destruct (data a !! idx).
  - cbn [enumerate_from foldl]. rewrite (IH (S n) _ idx i); cycle 1.
    { by destruct m. }
    destruct (decide (i = n)) as [->|Hne].
    + rewrite Nat.sub_diag. cbn [lookup list_lookup].
      rewrite (bool_decide_eq_false_2 (S n ≤ n ∧ _)) by lia.
      destruct m; cbn [negb].
      * rewrite bool_decide_eq_false_2 by (by intros [_ ?]).
        by destruct (data a !! idx).
      * rewrite bool_decide_eq_true_2 by done.
        rewrite imul_axis0_lookup, bool_decide_eq_true_2 by done.
        destruct (data a !! idx); simpl; [|done]. f_equal. lia.
    + assert (Hdata : data (if negb m then imul_axis0 n (-1) a else a) !! idx
                      = data a !! idx).
      { destruct m; cbn [negb]; [done|]. rewrite imul_axis0_lookup.
        rewrite bool_decide_eq_false_2 by nia. by destruct (data a !! idx). }
      rewrite Hdata. destruct (decide (n < i)) as [Hlt|Hge].
      * replace (i - n) with (S (i - S n)) by lia. cbn [lookup list_lookup].
        rewrite (bool_decide_ext (S n ≤ i ∧ flags !! (i - S n) = Some false)
                   (n ≤ i ∧ flags !! (i - S n) = Some false)) by intuition lia.
        done.
      * rewrite !bool_decide_eq_false_2 by lia. done.
Qed.

Lemma negate_rows_item (flags : list bool) a s0 s1 s2 i j k (m : bool) :
  shape a = [s0; s1; s2] → flags !! i = Some m → j < s1 → k < s2 →
  item3 (negate_rows flags a) i j k
  = (λ v, if m then v else (- v)%Z) <$> item3 a i j k.
Proof.
  intros Hs Hm Hj Hk. unfold item3. rewrite negate_rows_shape, Hs.
  unfold negate_rows, enumerate.
  rewrite (foldl_negate_lookup flags 0 a _ i); cycle 1.
  { rewrite Hs. simpl. nia. }
  rewrite Nat.sub_0_r, Hm.
  destruct (data a !! _); simpl; [|done]. f_equal.
  destruct m.
  - by rewrite bool_decide_eq_false_2 by (by intros [_ ?]).
  - by rewrite bool_decide_eq_true_2 by (split; [lia|done]).
Qed.

Lemma negate_single_objective a s1 :
  shape a = [1; s1; 1] → length (data a) = s1 →
  data (negate_rows [false] a) = Z.opp <$> data a.
Proof.
  intros Hs Hl. apply list_eq. intros idx. unfold negate_rows, enumerate.
  rewrite list_lookup_fmap.
  destruct (decide (idx < s1)) as [Hlt|Hge].
  - rewrite (foldl_negate_lookup [false] 0 a idx 0) by (rewrite Hs; simpl; lia).
    by destruct (data a !! idx).
  - cbn [enumerate_from foldl negb]. rewrite imul_axis0_lookup.
    rewrite (lookup_ge_None_2 (data a)) by lia. done.
Qed.

Lemma zip_opp {K} (keys : list K) (l : list Z) :
  zip keys (Z.opp <$> l) = flip_score <$> zip keys l.
Proof.
  revert l. induction keys as [|key keys IH]; intros [|v l]; simpl; [done..|].
  by rewrite <- IH.
Qed.

Lemma flip_score_involutive {K} (l : list (K * Z)) :
  flip_score <$> (flip_score <$> l) = l.
Proof.
  rewrite <- list_fmap_compose. rewrite <- (list_fmap_id l) at 2.
  apply list_fmap_ext. intros _ [key v] _. unfold flip_score. simpl.
  by rewrite Z.opp_involutive.
Qed.

(** C8.  For a call that passes the checks, with one flag per objective:
    a single boolean stands for that flag on every objective; the array given
    to the scoring policy has the shape of the input, its items are the
    negated input items on the objectives whose flag is false and the input
    items on the others; the call returns or raises as the policy does on
    that array, and the scores it returns are merged.  In consequence, with a
    single objective, [maximize=False] and a policy that scores a candidate
    by its one sample, a fresh round dispenses the candidates by ascending
    raw value, and no candidate left out has a lower raw value than a
    dispensed one; the score dispensed with a candidate is its negated raw
    value. *)
Theorem sign_convention {K : Type} {P : RankingPolicy}
    (w : world (ranking_state K)) (keys : list K) (r : loc) (a : ndarray)
    (s0 s1 s2 : nat) :
  arrays w !! r = Some a → shape a = [s0; s1; s2] →
  s0 ≤ 1 ∨ multiobjective = true → s1 = length keys →
  length (objective_flags (maximize (self w)) s0) = s0 →
  let flags := objective_flags (maximize (self w)) s0 in
  let adjusted := negate_rows flags a in
  let result := RankingSelector.add_possibilities keys r w in
  (∀ b i, maximize (self w) = MaxAll b → i < s0 → flags !! i = Some b)
  ∧ shape adjusted = shape a
  ∧ (∀ i j k (m : bool), flags !! i = Some m → j < s1 → k < s2 →
       item3 adjusted i j k = (λ v, if m then v else (- v)%Z) <$> item3 a i j k)
  ∧ result.1 = match _assign_score adjusted with
               | Return _ => Return tt
               | Raise e => Raise e
               end
  ∧ (∀ score, _assign_score adjusted = Return score →
       _options (self result.2)
       = nlargest (to_select (self w)) snd
           ((if gathering (self w) then _options (self w) else []) ++ zip keys score))
  ∧ (s0 = 1 → s2 = 1 → length (data a) = s1 →
     maximize (self w) = MaxAll false →
     gathering (self w) = true → _options (self w) = [] →
     _assign_score adjusted = Return (data adjusted) →
     ∃ chosen : list (K * Z),
       (RankingSelector.dispense (P := P) result.2).1 = Return (flip_score <$> chosen)
       ∧ length chosen = Z.to_nat (to_select (self w)) `min` length keys
       ∧ StronglySorted (λ x y, (x.2 ≤ y.2)%Z) chosen
       ∧ ∃ rest, zip keys (data a) ≡ₚ chosen ++ rest
                 ∧ ∀ x y, x ∈ chosen → y ∈ rest → (x.2 ≤ y.2)%Z).
Proof.
  intros Hr Hs H0 Hk Hl flags adjusted result.
  assert (Hp : passes_checks keys a) by (by exists s0, s1, s2).
  assert (Hresult : result
    = match _assign_score adjusted with
      | Return score =>
          (Return tt,
           World (RankingSelector.set_options
                    (nlargest (to_select (self w)) snd
                       ((if gathering (self w) then _options (self w) else [])
                          ++ zip keys score))
                    (self (entered w)))
                 (if all flags then arrays w else arrays w ++ [adjusted]))
      | Raise e =>
          (Raise e, World (self (entered w))
                          (if all flags then arrays w else arrays w ++ [adjusted]))
      end).
  { subst result. rewrite (ranking_add_work w keys r a) by done.
    rewrite (_add_possibilities_run (entered w) keys r a).
    - rewrite entered_maximize, entered_arrays, entered_to_select, entered_options, Hs.
      done.
    - by rewrite entered_arrays.
    - unfold ndim. rewrite Hs. simpl. lia.
    - by rewrite entered_maximize, Hs. }
  split; [|split; [|split; [|split; [|split]]]].
  - intros b i Hm Hi. subst flags. rewrite Hm. simpl. by apply lookup_replicate_2.
  - apply negate_rows_shape.
  - intros i j k m Hm Hj Hkk. by apply (negate_rows_item flags a s0 s1 s2).
  - rewrite Hresult. by destruct (_assign_score adjusted).
  - intros score Hscore. rewrite Hresult, Hscore. done.
  - intros -> -> Hdata Hm Hg Ho Hscore.
    assert (Hadj : data adjusted = Z.opp <$> data a).
    { subst adjusted flags. rewrite Hm. simpl. by apply (negate_single_objective a s1). }
    rewrite Hresult, Hscore, Hg, Ho, Hadj, zip_opp, dispense_run. simpl.
    set (n := to_select (self w)).
    set (pool := zip keys (data a)).
    destruct (best_of_merge snd n [] [] (flip_score <$> pool) (best_of_nil snd _))
      as (Hlen & Hsorted & rest & Hperm & Hdom).
    simpl in Hlen, Hsorted, Hperm, Hdom.
    exists (flip_score <$> nlargest n snd (flip_score <$> pool)).
    split; [by rewrite flip_score_involutive|]. split; [|split].
    + rewrite length_fmap, Hlen, length_fmap. subst pool.
      rewrite length_zip. lia.
    + eapply StronglySorted_fmap; [|exact Hsorted].
      intros [k1 v1] [k2 v2]. unfold descending, flip_score. simpl. lia.
    + exists (flip_score <$> rest). split.
      * rewrite <- fmap_app, <- Hperm. by rewrite flip_score_involutive.
      * intros x y (x' & -> & Hx)%list_elem_of_fmap (y' & -> & Hy)%list_elem_of_fmap.
        specialize (Hdom x' y' Hx Hy). unfold flip_score. simpl. lia.
Qed.

Lemma sign_convention_witness :
  ∃ chosen : list (string * Z),
    (RankingSelector.dispense (P := EnsembleSum)
       (RankingSelector.add_possibilities (P := EnsembleSum) ["a"; "b"; "c"] 2
          (RankingSelector.__init__ 2 (MaxAll false) example_store)).2).1
    = Return (flip_score <$> chosen)
    ∧ length chosen = 2
    ∧ StronglySorted (λ x y, (x.2 ≤ y.2)%Z) chosen
    ∧ ∃ rest, [("a", 5%Z); ("b", 1%Z); ("c", 9%Z)] ≡ₚ chosen ++ rest
              ∧ ∀ x y, x ∈ chosen → y ∈ rest → (x.2 ≤ y.2)%Z.
Proof.
  refine (proj2 (proj2 (proj2 (proj2 (proj2
    (sign_convention (P := EnsembleSum)
       (RankingSelector.__init__ 2 (MaxAll false) example_store)
       ["a"; "b"; "c"] 2 (NDArray [1; 3; 1] [5; 1; 9]%Z) 1 3 1 _ _ _ _ _)))))
    _ _ _ _ _ _ _).
  - reflexivity.
  - reflexivity.
  - left. lia.
  - reflexivity.
  - reflexivity.
  - reflexivity.
  - reflexivity.
  - reflexivity.
  - reflexivity.
  - reflexivity.
  - reflexivity.
  - reflexivity.
Defined.

(** The example of the specification: keys a, b, c with the samples
    [[[5], [1], [9]]] and [to_select = 2]. *)
Example maximize_true_example :
  (RankingSelector.dispense (P := EnsembleSum)
     (RankingSelector.add_possibilities (P := EnsembleSum) ["a"; "b"; "c"] 2
        (RankingSelector.__init__ 2 (MaxAll true) example_store)).2).1
  = Return [("c", 9%Z); ("a", 5%Z)].
Proof. reflexivity. Qed.

Example maximize_false_example :
  (RankingSelector.dispense (P := EnsembleSum)
     (RankingSelector.add_possibilities (P := EnsembleSum) ["a"; "b"; "c"] 2
        (RankingSelector.__init__ 2 (MaxAll false) example_store)).2).1
  = Return [("b", (-1)%Z); ("a", (-5)%Z)].
Proof. reflexivity. Qed.

Example merge_example :
  (RankingSelector.dispense (P := EnsembleSum)
     (gather (P := EnsembleSum) [(["a"], 0); (["b"; "c"], 1)]
        (RankingSelector.__init__ 2 (MaxAll true) example_store)).2).1
  = Return [("b", 20%Z); ("a", 10%Z)].
Proof. reflexivity. Qed.

(** ** The score aggregator *)

Section AggregatorFacts.
Context {MoleculeRecord : Type}.
Implicit Types (database : list (string * MoleculeRecord))
               (recipes : list (PropertyRecipe MoleculeRecord)).

Lemma extract_skips_all (records : list MoleculeRecord) recipes :
  (∀ record, record ∈ records →
     ∃ recipe, recipe ∈ recipes ∧ lookup recipe record = None) →
  foldl (λ output record,
           if negb (all ((λ recipe, bool_decide (lookup recipe record ≠ None)) <$> recipes))
           then output
           else output ++ [(λ recipe, default 0%Z (lookup recipe record)) <$> recipes])
        [] records = [].
Proof.
  induction records as [|record records IH]; intros Hnone; [done|].
  cbn [foldl].
  destruct (Hnone record) as (recipe & Hin & Hlookup); [by left|].
  assert (Hall : all ((λ recipe, bool_decide (lookup recipe record ≠ None)) <$> recipes)
                 = false).
  { apply not_true_is_false. unfold all. intros Hall.
    apply Is_true_true_2, forallb_True in Hall.
    rewrite Forall_fmap, list.Forall_forall in Hall.
    specialize (Hall recipe Hin). simpl in Hall.
    unfold id in Hall. apply bool_decide_unpack in Hall. done. }
  rewrite Hall. simpl. apply IH. intros record' Hin'. apply Hnone. by right.
Qed.
End AggregatorFacts.

(** C2, checked against the code.  When no molecule has a value for every
    recipe, [_extract_observations] returns [np.array([])]: a 1-dimensional
    array of shape (0,), whatever the number of recipes, and not an array of
    shape (0, number of recipes). *)
Theorem extract_observations_none_qualify {MoleculeRecord : Type}
    (database : list (string * MoleculeRecord))
    (recipes : list (PropertyRecipe MoleculeRecord)) :
  (∀ record, record ∈ values database →
     ∃ recipe, recipe ∈ recipes ∧ lookup recipe record = None) →
  _extract_observations database recipes = NDArray [0] []
  ∧ ndim (_extract_observations database recipes) = 1
  ∧ shape (_extract_observations database recipes) ≠ [0; length recipes].
Proof.
  intros Hnone. unfold _extract_observations.
  rewrite extract_skips_all by done. done.
Qed.

Lemma extract_observations_none_qualify_witness :
  _extract_observations example_database [recipe_of "ip"; recipe_of "ea"] = NDArray [0] []
  ∧ ndim (_extract_observations example_database [recipe_of "ip"; recipe_of "ea"]) = 1
  ∧ shape (_extract_observations example_database [recipe_of "ip"; recipe_of "ea"])
    ≠ [0; 2].
Proof.
  apply (extract_observations_none_qualify example_database
           [recipe_of "ip"; recipe_of "ea"]).
  intros record Hin. unfold values, example_database in Hin. simpl in Hin.
  apply elem_of_cons in Hin as [->|Hin].
  - exists (recipe_of "ea"). split; [|reflexivity]. right. left.
  - apply elem_of_cons in Hin as [->|Hin].
    + exists (recipe_of "ip"). split; [|reflexivity]. left.
    + by apply elem_of_nil in Hin.
Defined.

(** With one recipe both molecules qualify: a row per molecule. *)
Example extract_observations_example :
  _extract_observations example_database [recipe_of "ip"] = NDArray [1; 1] [10%Z]
  ∧ _extract_observations [] [recipe_of "ip"] = NDArray [0] [].
Proof. split; reflexivity. Qed.

(** * Further properties *)

(** ** Merging batch by batch *)

Section MergeExact.
Context {A : Type} (key : A → Z).
Implicit Types (x y z : A) (l : list A).

(** Two insertions of different keys commute. *)
Lemma insert_desc_comm x y l :
  (key x < key y)%Z →
  insert_desc key y (insert_desc key x l) = insert_desc key x (insert_desc key y l).
Proof.
  intros Hxy. induction l as [|u l IH]; simpl;
    repeat (match goal with
            | |- context [(?a <=? ?b)%Z] => destruct (Z.leb_spec a b); simpl
            end);
    try lia; try done.
  by rewrite IH.
Qed.

(** Inserting into the front list first, or into the merged list last, is
    the same. *)
Lemma foldr_insert_desc x l (base : list A) :
  foldr (insert_desc key) base (insert_desc key x l)
  = insert_desc key x (foldr (insert_desc key) base l).
Proof.
  induction l as [|u l IH]; simpl; [done|].
  destruct (key u <=? key x)%Z eqn:E; simpl; [done|].
  rewrite IH. apply insert_desc_comm. lia.
Qed.

Lemma foldr_sorted_reverse l (base : list A) :
  foldr (insert_desc key) base (sorted_reverse key l)
  = foldr (insert_desc key) base l.
Proof.
  induction l as [|x l IH]; simpl; [done|].
  by rewrite foldr_insert_desc, IH.
Qed.

Lemma sorted_reverse_app l1 l2 :
  sorted_reverse key (l1 ++ l2) = foldr (insert_desc key) (sorted_reverse key l2) l1.
Proof. unfold sorted_reverse. by rewrite foldr_app. Qed.

Lemma insert_desc_split z l :
  ∃ pre post, insert_desc key z l = pre ++ z :: post ∧ l = pre ++ post
              ∧ ∀ y, head post = Some y → (key y ≤ key z)%Z.
Proof.
  induction l as [|u l (pre & post & Hi & Hl & Hh)]; simpl.
  - exists [], []. by repeat split.
  - destruct (key u <=? key z)%Z eqn:E.
    + exists [], (u :: l). repeat split. intros y [= <-]. lia.
    + exists (u :: pre), post. rewrite Hi. repeat split; [by rewrite Hl at 1|done].
Qed.

Lemma insert_desc_app_l x l1 l2 :
  Exists (λ y, (key y ≤ key x)%Z) l1 →
  insert_desc key x (l1 ++ l2) = insert_desc key x l1 ++ l2.
Proof.
  induction l1 as [|u l1 IH]; intros Hex; [by apply Exists_nil in Hex|].
  simpl. destruct (key u <=? key x)%Z eqn:E; [done|].
  apply Exists_cons in Hex as [Hu|Hex]; [lia|]. simpl. by rewrite IH.
Qed.

Lemma insert_desc_app_r x l1 l2 :
  Forall (λ y, (key x < key y)%Z) l1 →
  insert_desc key x (l1 ++ l2) = l1 ++ insert_desc key x l2.
Proof.
  induction 1 as [|u l1 Hu _ IH]; simpl; [done|].
  destruct (key u <=? key x)%Z eqn:E; [lia|]. by rewrite IH.
Qed.

(** An item [z] merged before a run of insertions of items that are not
    smaller ends up behind all of them, and the other items are placed as if
    [z] were not there. *)
Lemma foldr_insert_behind z (inserted base : list A) :
  Forall (λ e, (key z ≤ key e)%Z) inserted →
  ∃ pre post,
    foldr (insert_desc key) (insert_desc key z base) inserted = pre ++ z :: post
    ∧ foldr (insert_desc key) base inserted = pre ++ post
    ∧ length inserted ≤ length pre
    ∧ ∀ y, head post = Some y → (key y ≤ key z)%Z.
Proof.
  induction 1 as [|e inserted He _ (pre & post & HU & HV & Hlen & Hhead)]; simpl.
  - destruct (insert_desc_split z base) as (pre & post & Hi & Hl & Hh).
    exists pre, post. repeat split; [done..|lia|done].
  - rewrite HU, HV.
    destruct (decide (Exists (λ y, (key y ≤ key e)%Z) pre)) as [Hex|Hnex].
    + exists (insert_desc key e pre), post.
      rewrite !insert_desc_app_l by done. repeat split; [|done].
      rewrite insert_desc_perm. simpl. lia.
    + apply not_Exists_Forall in Hnex; [|intros y; apply _].
      assert (Hall : Forall (λ y, (key e < key y)%Z) pre).
      { eapply Forall_impl; [exact Hnex|]. simpl. intros y Hy. lia. }
      exists (pre ++ [e]), post. rewrite !insert_desc_app_r by done.
      rewrite <- !app_assoc. simpl.
      assert (Hze : (key z <=? key e)%Z = true) by (apply Z.leb_le; lia).
      rewrite Hze. repeat split; [| |done].
      * f_equal. destruct post as [|y post]; [done|]. simpl.
        assert ((key y <=? key e)%Z = true) as ->; [|done].
        apply Z.leb_le. specialize (Hhead y eq_refl). lia.
      * rewrite length_app. simpl. lia.
Qed.

Lemma take_foldr_insert_behind n (inserted behind base : list A) :
  Forall (λ z, Forall (λ e, (key z ≤ key e)%Z) inserted) behind →
  n ≤ length inserted →
  take n (foldr (insert_desc key) (foldr (insert_desc key) base behind) inserted)
  = take n (foldr (insert_desc key) base inserted).
Proof.
  intros Hall Hn. induction Hall as [|z behind Hz _ IH]; simpl; [done|].
  destruct (foldr_insert_behind z inserted (foldr (insert_desc key) base behind) Hz)
    as (pre & post & -> & HV & Hlen & _).
  rewrite <- IH, HV. rewrite !take_app_le by lia. done.
Qed.

(** Only the first [n] items of a sorted list matter for the first [n] items
    of its merge with another list. *)
Lemma take_foldr_sorted n l (base : list A) :
  StronglySorted (descending key) l →
  take n (foldr (insert_desc key) base l)
  = take n (foldr (insert_desc key) base (take n l)).
Proof.
  intros Hl. destruct (decide (length l ≤ n)) as [Hle|Hgt].
  { by rewrite (take_ge l) by done. }
  rewrite <- (take_drop n l) at 1. rewrite foldr_app.
  apply take_foldr_insert_behind.
  - apply Forall_forall. intros z Hz. apply Forall_forall. intros e He.
    by apply (sorted_split key n l).
  - rewrite length_take. lia.
Qed.
End MergeExact.

Lemma nlargest_nlargest_app {A : Type} (key : A → Z) (n : Z) (l batch : list A) :
  nlargest n key (nlargest n key l ++ batch) = nlargest n key (l ++ batch).
Proof.
  unfold nlargest. rewrite !sorted_reverse_app.
  rewrite <- (foldr_sorted_reverse key l).
  symmetry. apply take_foldr_sorted. apply sorted_reverse_sorted.
Qed.

Lemma sorted_reverse_sorted_id {A : Type} (key : A → Z) (l : list A) :
  StronglySorted (descending key) l → sorted_reverse key l = l.
Proof.
  induction 1 as [|x l _ IH Hx]; simpl; [done|]. rewrite IH.
  destruct l as [|y l]; simpl; [done|].
  apply Forall_cons in Hx as [Hy _]. unfold descending in Hy.
  by assert ((key y <=? key x)%Z = true) as -> by (apply Z.leb_le; lia).
Qed.

Lemma nlargest_sorted_id {A : Type} (key : A → Z) (n : Z) (l : list A) :
  StronglySorted (descending key) l → length l ≤ Z.to_nat n →
  nlargest n key l = l.
Proof.
  intros Hl Hn. unfold nlargest. rewrite sorted_reverse_sorted_id by done.
  by apply take_ge.
Qed.

Lemma sorted_reverse_ties {A : Type} (key : A → Z) (c : Z) (l : list A) :
  Forall (λ x, key x = c) l → sorted_reverse key l = l.
Proof.
  intros Hl. apply sorted_reverse_sorted_id.
  induction Hl as [|x l Hx Hl IH]; constructor; [done|].
  eapply Forall_impl; [exact Hl|]. unfold descending. simpl. intros y Hy. lia.
Qed.

(** ** What every reachable selector satisfies *)

Section Reachable.
Context {K : Type} {P : RankingPolicy}.
Implicit Types (w : world (ranking_state K)) (keys : list K) (c : call (K := K)).

(** The selector after the work of a call: the attributes of the entered
    world, with the options it had or with a merge of them. *)
Lemma _add_possibilities_self w keys r a :
  arrays w !! r = Some a → passes_checks keys a →
  ∃ options,
    self (RankingSelector._add_possibilities keys r w).2
    = RankingSelector.set_options options (self w)
    ∧ (options = _options (self w)
       ∨ ∃ score, options
                  = nlargest (to_select (self w)) snd (_options (self w) ++ zip keys score)).
Proof.
  intros Hr Hp.
  destruct (_add_possibilities_cases w keys r a Hr Hp)
    as [(flags & Hm & Hl & ->)|(Hl & ->)].
  - exists (_options (self w)). split; [by destruct w as [[]]|by left].
  - cbv zeta. destruct (_assign_score _) as [score|e].
    + eexists. split; [done|]. right. by exists score.
    + exists (_options (self w)). split; [by destruct w as [[]]|by left].
Qed.

Lemma after_invariant w c (n : Z) (mx : maximize_t) :
  to_select (self w) = n ∧ maximize (self w) = mx
  ∧ length (_options (self w)) ≤ Z.to_nat n
  ∧ StronglySorted (descending snd) (_options (self w)) →
  to_select (self (after (P := P) c w)) = n
  ∧ maximize (self (after (P := P) c w)) = mx
  ∧ length (_options (self (after (P := P) c w))) ≤ Z.to_nat n
  ∧ StronglySorted (descending snd) (_options (self (after (P := P) c w))).
Proof.
  intros (Hn & Hm & Hlen & Hsorted). destruct c as [|keys r| |].
  - unfold after. simpl. repeat split; [done..|lia|constructor].
  - destruct (arrays w !! r) as [a|] eqn:Hr.
    2:{ rewrite after_add_rejected; [done|]. intros a. by rewrite Hr. }
    destruct (add_possibilities_cases w keys r) as [(e & He & _)|(a' & Hr' & Hp & _)].
    { unfold after. simpl. by rewrite He. }
    rewrite (after_add_checked w keys r a') by done.
    destruct (_add_possibilities_self (entered w) keys r a')
      as (options & -> & Hoptions); [by rewrite entered_arrays|done|].
    simpl. rewrite entered_to_select, entered_maximize, entered_options in *.
    split; [done|]. split; [done|].
    destruct Hoptions as [->|(score & ->)].
    + destruct (gathering (self w)); [done|]. split; [simpl; lia|constructor].
    + rewrite Hn. split.
      * rewrite length_nlargest. lia.
      * unfold nlargest. apply sorted_take, sorted_reverse_sorted.
  - unfold after. simpl. done.
  - unfold after. simpl. done.
Qed.
End Reachable.

Lemma calls_invariant {K : Type} {P : RankingPolicy}
    (n : Z) (mx : maximize_t) (store : list ndarray) (calls : list (call (K := K))) :
  to_select (self (foldl (λ w c, after (P := P) c w)
                         (RankingSelector.__init__ n mx store) calls)) = n
  ∧ maximize (self (foldl (λ w c, after (P := P) c w)
                          (RankingSelector.__init__ n mx store) calls)) = mx
  ∧ length (_options (self (foldl (λ w c, after (P := P) c w)
                                  (RankingSelector.__init__ n mx store) calls)))
    ≤ Z.to_nat n
  ∧ StronglySorted (descending snd)
      (_options (self (foldl (λ w c, after (P := P) c w)
                             (RankingSelector.__init__ n mx store) calls))).
Proof.
  assert (Hinit : to_select (self (RankingSelector.__init__ (K := K) n mx store)) = n
    ∧ maximize (self (RankingSelector.__init__ (K := K) n mx store)) = mx
    ∧ length (_options (self (RankingSelector.__init__ (K := K) n mx store))) ≤ Z.to_nat n
    ∧ StronglySorted (descending snd)
        (_options (self (RankingSelector.__init__ (K := K) n mx store)))).
  { repeat split; [simpl; lia|constructor]. }
  revert Hinit. generalize (RankingSelector.__init__ (K := K) n mx store).
  induction calls as [|c calls IH]; intros w Hw; simpl; [done|].
  apply IH. by apply after_invariant.
Qed.

(** X1.  A ranking selector constructed with [to_select <= 0] never
    dispenses anything, whatever has been gathered. *)
Theorem nothing_to_select {K : Type} {P : RankingPolicy}
    (n : Z) (mx : maximize_t) (store : list ndarray) (calls : list (call (K := K))) :
  (n ≤ 0)%Z →
  (RankingSelector.dispense (P := P)
     (foldl (λ w c, after (P := P) c w)
            (RankingSelector.__init__ n mx store) calls)).1 = Return [].
Proof.
  intros Hn. rewrite dispense_run. simpl.
  destruct (calls_invariant (P := P) n mx store calls) as (_ & _ & Hlen & _).
  destruct (_options _) as [|p l]; [done|]. simpl in Hlen. lia.
Qed.

Lemma nothing_to_select_witness :
  (RankingSelector.dispense (P := EnsembleSum)
     (foldl (λ w c, after (P := EnsembleSum) c w)
            (RankingSelector.__init__ 0 (MaxAll true) example_store)
            [AddPossibilities ["a"; "b"; "c"] 2])).1 = Return [].
Proof.
  apply (nothing_to_select (P := EnsembleSum) 0 (MaxAll true) example_store
           [AddPossibilities ["a"; "b"; "c"] 2]).
  lia.
Defined.

(** X2.  Whatever calls a driver makes on a ranking selector, and whether they
    return or raise: [to_select] and [maximize] stay as constructed, the
    selector never holds more than [to_select] options, and the options it
    holds are in descending order of score. *)
Theorem reachable_bounded_sorted {K : Type} {P : RankingPolicy}
    (n : Z) (mx : maximize_t) (store : list ndarray) (calls : list (call (K := K))) :
  to_select (self (foldl (λ w c, after (P := P) c w)
                         (RankingSelector.__init__ n mx store) calls)) = n
  ∧ maximize (self (foldl (λ w c, after (P := P) c w)
                          (RankingSelector.__init__ n mx store) calls)) = mx
  ∧ length (_options (self (foldl (λ w c, after (P := P) c w)
                                  (RankingSelector.__init__ n mx store) calls)))
    ≤ Z.to_nat n
  ∧ StronglySorted (descending snd)
      (_options (self (foldl (λ w c, after (P := P) c w)
                             (RankingSelector.__init__ n mx store) calls))).
Proof. apply calls_invariant. Qed.

(** X3.  Keeping the [n] largest of a list, then merging a batch and keeping the
    [n] largest again, gives the very list that keeping the [n] largest of
    everything at once gives: the same items in the same order, ties
    included. *)
Theorem nlargest_merge {A : Type} (key : A → Z) (n : Z) (l batch : list A) :
  nlargest n key (nlargest n key l ++ batch) = nlargest n key (l ++ batch).
Proof. apply nlargest_nlargest_app. Qed.

Section RoundExact.
Context {K : Type} {P : RankingPolicy}.
Implicit Types (w : world (ranking_state K)) (batches : list (list K * loc)).

Lemma gather_nlargest batches : ∀ w w1 pool,
  gathering (self w) = true →
  Forall (λ b, b.2 < length (arrays w)) batches →
  _options (self w) = nlargest (to_select (self w)) snd pool →
  gather batches w = (Return tt, w1) →
  _options (self w1)
  = nlargest (to_select (self w)) snd
      (pool ++ concat (batch_options (maximize (self w)) (arrays w) <$> batches)).
Proof.
  induction batches as [|[keys r] bs IH]; intros w w1 pool Hg Hlocs Hopts Hrun.
  - injection Hrun as <-. simpl. by rewrite app_nil_r.
  - unfold gather in Hrun. simpl in Hrun. unfold bind in Hrun.
    destruct (RankingSelector.add_possibilities keys r w) as [[[]|e] w'] eqn:Hadd;
      [|discriminate].
    apply add_possibilities_returns in Hadd
      as (_ & Hopts' & Hg' & Hn & Hm & extra & Hstore); [|done].
    apply Forall_cons in Hlocs as [_ Hlocs].
    specialize (IH w' w1 (pool ++ batch_options (maximize (self w)) (arrays w) (keys, r))).
    rewrite Hn, Hm, Hstore in IH. rewrite pool_grow in IH by done.
    rewrite fmap_cons. cbn [concat]. rewrite app_assoc. apply IH; [done| | |done].
    + eapply Forall_impl; [exact Hlocs|]. intros b Hb. rewrite length_app. simpl in *. lia.
    + rewrite Hopts', Hopts. apply nlargest_nlargest_app.
Qed.
End RoundExact.

(** X4.  From the start of a round, after any sequence of [add_possibilities]
    calls that return, [dispense] yields exactly
    [nlargest(to_select, everything gathered)]: the pairs that one selection
    over all the batches together would give, in the same order, pairs of
    equal score in the order they were gathered. *)
Theorem dispense_is_nlargest_of_pool {K : Type} {P : RankingPolicy}
    (w0 w1 : world (ranking_state K)) (batches : list (list K * loc)) :
  gathering (self w0) = true → _options (self w0) = [] →
  Forall (λ b, b.2 < length (arrays w0)) batches →
  gather batches w0 = (Return tt, w1) →
  (RankingSelector.dispense (P := P) w1).1
  = Return (nlargest (to_select (self w0)) snd
              (concat (batch_options (maximize (self w0)) (arrays w0) <$> batches))).
Proof.
  intros Hg Ho Hlocs Hrun. rewrite dispense_run. simpl. f_equal.
  rewrite (gather_nlargest batches w0 w1 []); [done..| |done].
  rewrite Ho. unfold nlargest. simpl. by rewrite take_nil.
Qed.

Lemma dispense_is_nlargest_of_pool_witness :
  (RankingSelector.dispense (P := EnsembleSum)
     (gather (P := EnsembleSum) [(["a"], 0); (["b"; "c"], 1)]
        (RankingSelector.__init__ 2 (MaxAll true) example_store)).2).1
  = Return (nlargest 2 snd [("a", 10%Z); ("b", 20%Z); ("c", 5%Z)]).
Proof.
  apply (dispense_is_nlargest_of_pool (P := EnsembleSum)
           (RankingSelector.__init__ 2 (MaxAll true) example_store)
           (gather (P := EnsembleSum) [(["a"], 0); (["b"; "c"], 1)]
              (RankingSelector.__init__ 2 (MaxAll true) example_store)).2
           [(["a"], 0); (["b"; "c"], 1)]).
  - reflexivity.
  - reflexivity.
  - repeat constructor.
  - reflexivity.
Defined.

(** X5.  A batch whose candidates all get the same score, gathered at the start
    of a round: the first [to_select] keys are dispensed, in the order of the
    batch. *)
Theorem equal_scores_keep_first {K : Type} {P : RankingPolicy}
    (w w1 : world (ranking_state K)) (keys : list K) (r : loc)
    (a : ndarray) (score : list Z) (c : Z) :
  gathering (self w) = true → _options (self w) = [] →
  arrays w !! r = Some a →
  _assign_score (negate_rows (objective_flags (maximize (self w)) (hd 0 (shape a))) a)
  = Return score →
  Forall (λ v, v = c) score →
  RankingSelector.add_possibilities keys r w = (Return tt, w1) →
  (RankingSelector.dispense (P := P) w1).1
  = Return (take (Z.to_nat (to_select (self w))) (zip keys score)).
Proof.
  intros Hg Ho Hr Hscore Hc Hrun. rewrite dispense_run. simpl. f_equal.
  apply add_possibilities_returns in Hrun as (_ & -> & _); [|done].
  rewrite Ho. unfold batch_options. simpl. rewrite Hr, Hscore.
  unfold nlargest. rewrite (sorted_reverse_ties snd c); [done|].
  apply Forall_forall. intros [k v] Hin. simpl.
  apply elem_of_zip_r in Hin. rewrite Forall_forall in Hc. by apply Hc.
Qed.

Lemma equal_scores_keep_first_witness :
  (RankingSelector.dispense (P := EnsembleSum)
     (RankingSelector.add_possibilities (P := EnsembleSum) ["a"; "b"; "c"] 0
        (RankingSelector.__init__ 2 (MaxAll true) example_store_edge)).2).1
  = Return [("a", 7%Z); ("b", 7%Z)].
Proof.
  apply (equal_scores_keep_first (P := EnsembleSum)
           (RankingSelector.__init__ 2 (MaxAll true) example_store_edge)
           (RankingSelector.add_possibilities (P := EnsembleSum) ["a"; "b"; "c"] 0
              (RankingSelector.__init__ 2 (MaxAll true) example_store_edge)).2
           ["a"; "b"; "c"] 0 (NDArray [1; 3; 1] [7; 7; 7]%Z) [7; 7; 7]%Z 7%Z).
  - reflexivity.
  - reflexivity.
  - reflexivity.
  - reflexivity.
  - repeat constructor.
  - reflexivity.
Defined.

(** X6.  In a state a driver can reach, while the selector is gathering, an
    [add_possibilities] call with no keys that returns leaves the selector as
    it was: the options retained are the same list. *)
Theorem empty_batch_changes_nothing {K : Type} {P : RankingPolicy}
    (w w1 : world (ranking_state K)) (r : loc) :
  reachable (P := P) w → gathering (self w) = true →
  RankingSelector.add_possibilities [] r w = (Return tt, w1) →
  self w1 = self w.
Proof.
  intros (n & mx & store & calls & ->) Hg Hrun.
  destruct (calls_invariant (P := P) n mx store calls) as (Hn & _ & Hlen & Hsorted).
  apply add_possibilities_returns in Hrun as (_ & Ho & Hg' & Hn' & Hm' & _); [|done].
  assert (Hbatch : batch_options (P := P) (K := K)
            (maximize (self (foldl (λ w c, after (P := P) c w)
                                   (RankingSelector.__init__ n mx store) calls)))
            (arrays (foldl (λ w c, after (P := P) c w)
                           (RankingSelector.__init__ n mx store) calls)) ([], r) = []).
  { unfold batch_options. simpl. destruct (_ !! r); [|done]. by destruct (_assign_score _). }
  rewrite Hbatch, app_nil_r in Ho.
  rewrite nlargest_sorted_id in Ho by (done || lia).
  rewrite <- Hg' in Hg.
  destruct (self w1), (self (foldl _ _ _)). simpl in *. congruence.
Qed.

Lemma empty_batch_changes_nothing_witness :
  self (RankingSelector.add_possibilities (P := EnsembleSum) [] 1
          (foldl (λ w c, after (P := EnsembleSum) c w)
                 (RankingSelector.__init__ 2 (MaxAll true) example_store_edge)
                 [AddPossibilities ["a"; "b"; "c"] 0])).2
  = self (foldl (λ w c, after (P := EnsembleSum) c w)
                (RankingSelector.__init__ 2 (MaxAll true) example_store_edge)
                [AddPossibilities ["a"; "b"; "c"] 0]).
Proof.
  apply (empty_batch_changes_nothing (P := EnsembleSum)
           (foldl (λ w c, after (P := EnsembleSum) c w)
                  (RankingSelector.__init__ 2 (MaxAll true) example_store_edge)
                  [AddPossibilities ["a"; "b"; "c"] 0])
           (RankingSelector.add_possibilities (P := EnsembleSum) [] 1
              (foldl (λ w c, after (P := EnsembleSum) c w)
                     (RankingSelector.__init__ 2 (MaxAll true) example_store_edge)
                     [AddPossibilities ["a"; "b"; "c"] 0])).2 1).
  - by eexists _, _, _, _.
  - reflexivity.
  - reflexivity.
Defined.

(** ** When the scoring policy raises *)

(** X7.  When a call passes the checks and the scoring policy raises, the call
    raises the same exception and no option is merged: the options are those
    the selector had if it was gathering, and none if the call came after a
    dispense. *)
Theorem policy_exception_propagates {K : Type} {P : RankingPolicy}
    (w : world (ranking_state K)) (keys : list K) (r : loc) (a : ndarray) (e : exn) :
  arrays w !! r = Some a → passes_checks keys a →
  length (objective_flags (maximize (self w)) (hd 0 (shape a))) = hd 0 (shape a) →
  _assign_score (negate_rows (objective_flags (maximize (self w)) (hd 0 (shape a))) a)
  = Raise e →
  (RankingSelector.add_possibilities keys r w).1 = Raise e
  ∧ self (RankingSelector.add_possibilities keys r w).2
    = RankingState (to_select (self w)) true
        (if gathering (self w) then _options (self w) else []) (maximize (self w)).
Proof.
  intros Hr Hp Hl He. rewrite (ranking_add_work w keys r a) by done.
  rewrite (_add_possibilities_run (entered w) keys r a).
  - cbv zeta. rewrite entered_maximize, He. simpl. split; [done|].
    unfold entered. destruct (gathering (self w)) eqn:Hg; simpl; [|done].
    destruct w as [[]]. simpl in *. by subst.
  - by rewrite entered_arrays.
  - destruct Hp as (? & ? & ? & Hs & _). unfold ndim. rewrite Hs. simpl. lia.
  - by rewrite entered_maximize.
Qed.

Lemma policy_exception_propagates_witness :
  (RankingSelector.add_possibilities (P := AbstractRanking) ["a"; "b"; "c"] 2
     example_dispensed).1 = Raise NotImplementedError
  ∧ self (RankingSelector.add_possibilities (P := AbstractRanking) ["a"; "b"; "c"] 2
            example_dispensed).2
    = RankingState 2 true [] (MaxAll true).
Proof.
  apply (policy_exception_propagates (P := AbstractRanking) example_dispensed
           ["a"; "b"; "c"] 2 (NDArray [1; 3; 1] [5; 1; 9]%Z) NotImplementedError).
  - reflexivity.
  - exists 1, 3, 1. split; [reflexivity|]. split; [left; lia|reflexivity].
  - reflexivity.
  - reflexivity.
Defined.

(** ** Minimising and maximising *)

(** X8.  A selector that minimises, given some samples, and a selector that
    maximises, given the negated samples, do the same when they start from
    the same options: the same outcome and the same options retained. *)
Theorem minimise_is_maximise_negated {K : Type} {P : RankingPolicy}
    (w w' : world (ranking_state K)) (keys : list K) (r r' : loc) (a : ndarray)
    (s0 s1 s2 : nat) :
  arrays w !! r = Some a → shape a = [s0; s1; s2] →
  arrays w' !! r' = Some (negate_rows (replicate s0 false) a) →
  s0 ≤ 1 ∨ multiobjective = true → s1 = length keys →
  maximize (self w) = MaxAll false → maximize (self w') = MaxAll true →
  to_select (self w') = to_select (self w) →
  gathering (self w') = gathering (self w) →
  _options (self w') = _options (self w) →
  (RankingSelector.add_possibilities keys r' w').1
  = (RankingSelector.add_possibilities keys r w).1
  ∧ _options (self (RankingSelector.add_possibilities keys r' w').2)
    = _options (self (RankingSelector.add_possibilities keys r w).2).
Proof.
  intros Hr Hs Hr' H0 H1 Hm Hm' Hn Hg Ho.
  assert (Hs' : shape (negate_rows (replicate s0 false) a) = [s0; s1; s2]).
  { by rewrite negate_rows_shape. }
  rewrite (ranking_add_work w keys r a) by (done || by exists s0, s1, s2).
  rewrite (ranking_add_work w' keys r' (negate_rows (replicate s0 false) a))
    by (done || by exists s0, s1, s2).
  rewrite (_add_possibilities_run (entered w) keys r a); cycle 1.
  { by rewrite entered_arrays. }
  { unfold ndim. rewrite Hs. simpl. lia. }
  { rewrite entered_maximize, Hm, Hs. simpl. by rewrite length_replicate. }
  rewrite (_add_possibilities_run (entered w') keys r'
             (negate_rows (replicate s0 false) a)); cycle 1.
  { by rewrite entered_arrays. }
  { unfold ndim. rewrite Hs'. simpl. lia. }
  { rewrite entered_maximize, Hm', Hs'. simpl. by rewrite length_replicate. }
  cbv zeta. rewrite !entered_maximize, !entered_to_select, !entered_options.
  rewrite Hm, Hm', Hs', Hs, Hn, Hg, Ho. simpl.
  rewrite (negate_rows_all_true (replicate s0 true)); cycle 1.
  { unfold all. apply forallb_forall. intros b Hb%list_elem_of_In.
    by apply elem_of_replicate in Hb as [-> _]. }
  destruct (_assign_score _); simpl; (split; [done|]); [done|].
  by rewrite !entered_options, Hg, Ho.
Qed.

Lemma minimise_is_maximise_negated_witness :
  (RankingSelector.add_possibilities (P := EnsembleSum) ["a"; "b"; "c"] 2
     (RankingSelector.__init__ 2 (MaxAll true) example_store_edge)).1
  = (RankingSelector.add_possibilities (P := EnsembleSum) ["a"; "b"; "c"] 2
       (RankingSelector.__init__ 2 (MaxAll false) example_store)).1
  ∧ _options (self (RankingSelector.add_possibilities (P := EnsembleSum) ["a"; "b"; "c"] 2
                      (RankingSelector.__init__ 2 (MaxAll true) example_store_edge)).2)
    = _options (self (RankingSelector.add_possibilities (P := EnsembleSum)
                        ["a"; "b"; "c"] 2
                        (RankingSelector.__init__ 2 (MaxAll false) example_store)).2).
Proof.
  apply (minimise_is_maximise_negated (P := EnsembleSum)
           (RankingSelector.__init__ 2 (MaxAll false) example_store)
           (RankingSelector.__init__ 2 (MaxAll true) example_store_edge)
           ["a"; "b"; "c"] 2 2 (NDArray [1; 3; 1] [5; 1; 9]%Z) 1 3 1).
  - reflexivity.
  - reflexivity.
  - reflexivity.
  - left. lia.
  - reflexivity.
  - reflexivity.
  - reflexivity.
  - reflexivity.
  - reflexivity.
  - reflexivity.
Defined.

(** ** Edges of the base class *)

(** X9.  On every selector, a 0-dimensional samples array makes
    [add_possibilities] raise [IndexError] (of [samples.shape[0]]), not one
    of its [ValueError]s; the selector and the store are left as they
    were. *)
Theorem scalar_samples_index_error {K St : Type} {A : SelectorAttrs St}
    {C : SelectorMethods K St} (w : world St) (keys : list K) (r : loc) (a : ndarray) :
  arrays w !! r = Some a → ndim a = 0 →
  Selector.add_possibilities keys r w
  = (Raise (IndexError "tuple index out of range"), w).
Proof.
  intros Hr Hn. apply (add_possibilities_scalar w keys r a Hr).
  unfold ndim in Hn. by destruct (shape a).
Qed.

Lemma scalar_samples_index_error_witness :
  Selector.add_possibilities (C := RankingSelector.methods (P := EnsembleSum))
    ["a"] 3 (RankingSelector.__init__ 2 (MaxAll true) example_store_edge)
  = (Raise (IndexError "tuple index out of range"),
     RankingSelector.__init__ 2 (MaxAll true) example_store_edge).
Proof.
  apply (scalar_samples_index_error (C := RankingSelector.methods (P := EnsembleSum))
           (RankingSelector.__init__ 2 (MaxAll true) example_store_edge)
           ["a"] 3 (NDArray [] [4]%Z)).
  - reflexivity.
  - reflexivity.
Defined.

(** X10.  The base class used as it is: [dispense] raises [NotImplementedError]
    after it has set [gathering] to false, and an [add_possibilities] call
    that passes the checks raises [NotImplementedError] after it has set
    [gathering] back to true. *)
Theorem base_class_not_implemented {K : Type}
    (w : world SelectorBase.state) (keys : list K) (r : loc) (a : ndarray)
    (s1 s2 : nat) :
  Selector.dispense (C := SelectorBase.methods K) w
  = (Raise NotImplementedError,
     World (SelectorBase.State (SelectorBase.to_select (self w)) false) (arrays w))
  ∧ (arrays w !! r = Some a → shape a = [1; s1; s2] → s1 = length keys →
     Selector.add_possibilities (C := SelectorBase.methods K) keys r w
     = (Raise NotImplementedError,
        World (SelectorBase.State (SelectorBase.to_select (self w)) true) (arrays w))).
Proof.
  split; [done|]. intros Hr Hs Hk.
  rewrite (add_possibilities_work (C := SelectorBase.methods K) w keys r a 1 s1 s2)
    by (done || (left; lia)).
  destruct w as [[n g] store]. by destruct g.
Qed.

Lemma base_class_not_implemented_witness :
  Selector.add_possibilities (C := SelectorBase.methods string) ["a"; "b"; "c"] 2
    (Selector.dispense (C := SelectorBase.methods string)
       (SelectorBase.__init__ 2 example_store)).2
  = (Raise NotImplementedError, SelectorBase.__init__ 2 example_store).
Proof.
  exact (proj2 (base_class_not_implemented
                  (Selector.dispense (C := SelectorBase.methods string)
                     (SelectorBase.__init__ 2 example_store)).2
                  ["a"; "b"; "c"] 2 (NDArray [1; 3; 1] [5; 1; 9]%Z) 3 1)
           eq_refl eq_refl eq_refl).
Defined.

(** ** The rows of the score aggregator *)

Section AggregatorRows.
Context {MoleculeRecord : Type}.
Implicit Types (database : list (string * MoleculeRecord))
               (recipes : list (PropertyRecipe MoleculeRecord))
               (record : MoleculeRecord).

(** The test of the loop and the row it appends, against the values looked
    up. *)
Lemma row_of_record record recipes :
  match mapM (λ recipe, lookup recipe record) recipes with
  | Some row =>
      all ((λ recipe, bool_decide (lookup recipe record ≠ None)) <$> recipes) = true
      ∧ (λ recipe, default 0%Z (lookup recipe record)) <$> recipes = row
      ∧ length row = length recipes
  | None =>
      all ((λ recipe, bool_decide (lookup recipe record ≠ None)) <$> recipes) = false
  end.
Proof.
  induction recipes as [|recipe recipes IH]; [done|].
  assert (Hcons : ∀ (b : bool) l, all (b :: l) = b && all l) by done.
  rewrite !fmap_cons, Hcons. cbn [mapM].
  destruct (lookup recipe record) as [v|] eqn:Hv; [|done].
  rewrite bool_decide_eq_true_2 by done. cbn [mbind option_bind default andb].
  destruct (mapM _ recipes) as [row|]; cbn [mbind option_bind mret option_ret].
  - destruct IH as (Hall & Hrow & Hlen). by rewrite Hall, Hrow, length_cons, Hlen.
  - done.
Qed.

Lemma extract_loop (records : list MoleculeRecord) recipes (output : list (list Z)) :
  foldl (λ output record,
           if negb (all ((λ recipe, bool_decide (lookup recipe record ≠ None)) <$> recipes))
           then output
           else output ++ [(λ recipe, default 0%Z (lookup recipe record)) <$> recipes])
        output records
  = output ++ omap (λ record, mapM (λ recipe, lookup recipe record) recipes) records.
Proof.
  revert output. induction records as [|record records IH]; intros output.
  - by rewrite app_nil_r.
  - cbn [foldl omap list_omap]. rewrite IH.
    pose proof (row_of_record record recipes) as Hrow.
    destruct (mapM _ recipes) as [row|].
    + destruct Hrow as (-> & -> & _). simpl. by rewrite <- app_assoc.
    + by rewrite Hrow.
Qed.

Lemma complete_rows_lengths database recipes :
  Forall (λ row, length row = length recipes) (complete_rows database recipes).
Proof.
  unfold complete_rows. induction (values database) as [|record records IH]; [constructor|].
  cbn [omap list_omap]. pose proof (row_of_record record recipes) as Hrow.
  destruct (mapM _ recipes) as [row|]; [|done].
  constructor; [by destruct Hrow as (_ & _ & ?)|done].
Qed.

Lemma complete_rows_bound database recipes :
  length (complete_rows database recipes) ≤ length database.
Proof.
  unfold complete_rows, values. rewrite <- (length_fmap snd database).
  induction (database.*2) as [|record records IH]; [done|].
  cbn [omap list_omap]. destruct (mapM _ recipes); simpl; lia.
Qed.
End AggregatorRows.

(** X11.  [_extract_observations] returns [np.array] of the rows of the molecules
    that have a value for every recipe, in the order of the database, each
    row holding the values of the recipes in their order; a molecule that
    lacks a value contributes nothing.  There are at most as many rows as
    molecules, every row has one value per recipe, and when at least one
    molecule qualifies the shape is (rows, recipes). *)
Theorem extract_observations_complete_rows {MoleculeRecord : Type}
    (database : list (string * MoleculeRecord))
    (recipes : list (PropertyRecipe MoleculeRecord)) :
  _extract_observations database recipes = np_array (complete_rows database recipes)
  ∧ length (complete_rows database recipes) ≤ length database
  ∧ Forall (λ row, length row = length recipes) (complete_rows database recipes)
  ∧ (complete_rows database recipes ≠ [] →
     shape (_extract_observations database recipes)
     = [length (complete_rows database recipes); length recipes]
     ∧ data (_extract_observations database recipes)
       = concat (complete_rows database recipes)).
Proof.
  assert (Heq : _extract_observations database recipes
                = np_array (complete_rows database recipes)).
  { unfold _extract_observations, complete_rows. by rewrite extract_loop. }
  split; [done|]. split; [apply complete_rows_bound|].
  split; [apply complete_rows_lengths|].
  intros Hne. rewrite Heq.
  pose proof (complete_rows_lengths database recipes) as Hlen.
  destruct (complete_rows database recipes) as [|row rows]; [done|].
  apply Forall_cons in Hlen as [Hrow _]. simpl. by rewrite Hrow.
Qed.

Lemma extract_observations_complete_rows_witness :
  shape (_extract_observations example_database [recipe_of "ip"]) = [1; 1]
  ∧ data (_extract_observations example_database [recipe_of "ip"]) = [10%Z].
Proof.
  apply (proj2 (proj2 (proj2 (extract_observations_complete_rows example_database
                                [recipe_of "ip"])))).
  discriminate.
Defined.

(** X12.  With an empty sequence of recipes every molecule qualifies: for a
    database that is not empty the result has one empty row per molecule,
    shape (molecules, 0). *)
Theorem extract_observations_no_recipes {MoleculeRecord : Type}
    (database : list (string * MoleculeRecord)) :
  database ≠ [] →
  _extract_observations database [] = NDArray [length database; 0] [].
Proof.
  intros Hne. unfold _extract_observations. rewrite extract_loop. simpl.
  unfold values. destruct database as [|[key record] database]; [done|]. simpl.
  f_equal.
  - do 2 f_equal. clear. induction database as [|p database IH]; simpl; [done|].
    by rewrite IH.
  - clear. induction database as [|p database IH]; simpl; done.
Qed.

Lemma extract_observations_no_recipes_witness :
  _extract_observations example_database [] = NDArray [2; 0] [].
Proof.
  apply (extract_observations_no_recipes example_database). discriminate.
Defined.

(** ** [convert_string_to_dict] *)

Lemma row_leb_le x y : row_leb x y = true ↔ row_le x y.
Proof.
  unfold row_leb, row_le. rewrite orb_true_iff, andb_true_iff.
  rewrite Z.ltb_lt, Z.eqb_eq, Z.leb_le. done.
Qed.

Lemma row_leb_gt x y : row_leb x y = false → row_le y x.
Proof.
  intros H. destruct (decide (row_le x y)) as [Hle|Hnle].
  - apply row_leb_le in Hle. congruence.
  - unfold row_le in *. lia.
Qed.

#[local] Instance row_le_antisymm : AntiSymm (=) row_le.
Proof.
  intros [a b] [c d]. unfold row_le. simpl. intros H1 H2.
  f_equal; lia.
Qed.

Lemma row_le_trans x y z : row_le x y → row_le y z → row_le x z.
Proof. unfold row_le. lia. Qed.

Lemma insert_row_perm x l : insert_row x l ≡ₚ x :: l.
Proof.
  induction l as [|y l IH]; simpl; [done|].
  destruct (row_leb x y); [done|]. rewrite IH. apply Permutation_swap.
Qed.

Lemma insert_row_sorted x l :
  StronglySorted row_le l → StronglySorted row_le (insert_row x l).
Proof.
  induction 1 as [|y l Hl IH Hy]; simpl.
  - repeat constructor.
  - destruct (row_leb x y) eqn:E.
    + apply row_leb_le in E. constructor; [by constructor|].
      constructor; [done|].
      eapply Forall_impl; [exact Hy|]. intros z Hz. simpl in Hz.
      by apply row_le_trans with y.
    + apply row_leb_gt in E. constructor; [done|].
      rewrite insert_row_perm. by constructor.
Qed.

Lemma lexsort_rows_perm rows : lexsort_rows rows ≡ₚ rows.
Proof.
  induction rows as [|x rows IH]; simpl; [done|].
  by rewrite insert_row_perm, IH.
Qed.

Lemma lexsort_rows_sorted rows : StronglySorted row_le (lexsort_rows rows).
Proof.
  induction rows as [|x rows IH]; simpl; [constructor|]. by apply insert_row_sorted.
Qed.

(** The order of the rows given does not matter to the sorted rows. *)
Lemma lexsort_rows_order rows rows' :
  rows ≡ₚ rows' → lexsort_rows rows = lexsort_rows rows'.
Proof.
  intros Hperm. apply (StronglySorted_unique row_le).
  - apply lexsort_rows_sorted.
  - apply lexsort_rows_sorted.
  - by rewrite !lexsort_rows_perm.
Qed.

Lemma edge_loop (l : list (Z * Z * string)) (rows : list (Z * Z)) (types : list string) :
  foldl (λ '(connectivity, edge_type) '(a, b, bond_type),
           (connectivity ++ [(a, b)] ++ [(b, a)],
            edge_type ++ [bond_type] ++ [bond_type]))
        (rows, types) l
  = (rows ++ doubled_rows l, types ++ flat_map (λ e, [e.2; e.2]) l).
Proof.
  revert rows types. induction l as [|[[a b] t] l IH]; intros rows types; simpl.
  - by rewrite !app_nil_r.
  - rewrite IH. simpl. by rewrite <- !app_assoc.
Qed.

Lemma concat_fmap_flat_map {A B : Type} (f : A → list B) (l : list A) :
  concat (f <$> l) = flat_map f l.
Proof.
  induction l as [|x l IH]; [done|].
  rewrite fmap_cons. cbn [concat flat_map]. by rewrite IH.
Qed.

Lemma np_array_rows_shape rows :
  rows ≠ [] →
  np_array_rows rows
  = NDArray [length rows; 2] (flat_map (λ row, [row.1; row.2]) rows).
Proof.
  intros Hne. unfold np_array_rows. destruct rows as [|row rows]; [done|].
  change (NDArray [length ((λ row : Z * Z, [row.1; row.2]) <$> row :: rows); 2]
            (concat ((λ row : Z * Z, [row.1; row.2]) <$> row :: rows))
          = NDArray [length (row :: rows); 2]
              (flat_map (λ row : Z * Z, [row.1; row.2]) (row :: rows))).
  by rewrite concat_fmap_flat_map, length_fmap.
Qed.

Lemma np_array_rows_size rows :
  0 < size_of (shape (np_array_rows rows)) ↔ rows ≠ [].
Proof.
  destruct rows as [|row rows]; [simpl; split; [lia|done]|].
  rewrite np_array_rows_shape by done. simpl. split; [done|lia].
Qed.

Lemma foldr_max_bound (x : Z) (l : list Z) :
  (∀ y, y ∈ x :: l → (y ≤ foldr Z.max x l)%Z) ∧ foldr Z.max x l ∈ x :: l.
Proof.
  induction l as [|z l [IH1 IH2]]; simpl.
  - split; [|by left]. intros y Hy%list_elem_of_singleton. lia.
  - split.
    + intros y Hy. apply elem_of_cons in Hy as [->|Hy].
      * specialize (IH1 x). assert (x ≤ foldr Z.max x l)%Z by (apply IH1; by left). lia.
      * apply elem_of_cons in Hy as [->|Hy]; [lia|].
        assert (y ≤ foldr Z.max x l)%Z by (apply IH1; by right). lia.
    + destruct (Z.max_spec z (foldr Z.max x l)) as [[_ ->]|[_ ->]].
      * apply elem_of_cons in IH2 as [->|IH2]; [by left|]. right. by right.
      * right. by left.
Qed.

(** The largest item of an array is the value [m] exactly when no item is
    larger and some item is [m]. *)
Lemma array_max_spec (a : ndarray) (m : Z) :
  data a ≠ [] →
  array_max a = Some m ↔ (∀ y, y ∈ data a → (y ≤ m)%Z) ∧ m ∈ data a.
Proof.
  intros Hne. unfold array_max. destruct (data a) as [|x l]; [done|].
  destruct (foldr_max_bound x l) as [Hb Hin]. split.
  - intros [= <-]. done.
  - intros [Hall Hm]. f_equal. apply Z.le_antisymm; [by apply Hall|by apply Hb].
Qed.

Lemma elem_of_flat_rows (rows : list (Z * Z)) (y : Z) :
  y ∈ flat_map (λ row, [row.1; row.2]) rows ↔ ∃ row, row ∈ rows ∧ (y = row.1 ∨ y = row.2).
Proof.
  rewrite list_elem_of_In, in_flat_map. split.
  - intros (row & Hin & Hy). exists row. rewrite list_elem_of_In. split; [done|].
    simpl in Hy. destruct Hy as [<-|[<-|[]]]; auto.
  - intros (row & Hin & Hy). exists row. rewrite <- list_elem_of_In. split; [done|].
    simpl. destruct Hy as [->| ->]; auto.
Qed.

Lemma elem_of_doubled_rows (l : list (Z * Z * string)) (row : Z * Z) :
  row ∈ doubled_rows l
  ↔ ∃ e, e ∈ l ∧ (row = (e.1.1, e.1.2) ∨ row = (e.1.2, e.1.1)).
Proof.
  unfold doubled_rows. rewrite list_elem_of_In, in_flat_map. split.
  - intros (e & Hin & Hy). exists e. rewrite list_elem_of_In. split; [done|].
    simpl in Hy. destruct Hy as [<-|[<-|[]]]; auto.
  - intros (e & Hin & Hy). exists e. rewrite <- list_elem_of_In. split; [done|].
    simpl. destruct Hy as [->| ->]; auto.
Qed.

Lemma doubled_rows_nil (l : list (Z * Z * string)) : doubled_rows l = [] ↔ l = [].
Proof. destruct l as [|e l]; [done|]. simpl. split; discriminate. Qed.

Lemma length_doubled_rows (l : list (Z * Z * string)) :
  length (doubled_rows l) = 2 * length l.
Proof. induction l as [|e l IH]; simpl; [done|]. rewrite IH. lia. Qed.

Lemma list_index_lookup (x : string) (l : list string) (i : nat) :
  list_index x l = Some i → l !! i = Some x.
Proof.
  revert i. induction l as [|y l IH]; intros i; simpl; [done|].
  case_decide as Hy; [by intros [= <-]; subst|].
  destruct (list_index x l) as [j|]; [|done]. intros [= <-]. by apply IH.
Qed.

Section ConvertStringFacts.
Context (repr : string → string).

Lemma bond_indices_returns (types : list string) (ids : list nat) :
  bond_indices repr types = Return ids →
  Forall2 (λ t i, bond_types !! i = Some t) types ids.
Proof.
  revert ids. induction types as [|t types IH]; intros ids; cbn [bond_indices].
  - intros [= <-]. constructor.
  - destruct (list_index t bond_types) as [i|] eqn:Hi; [|discriminate].
    destruct (bond_indices repr types) as [ids'|e]; [|discriminate].
    intros [= <-]. constructor; [|by apply IH]. by apply list_index_lookup.
Qed.

Lemma bond_indices_known (types : list string) :
  Forall (λ t, is_Some (list_index t bond_types)) types →
  ∃ ids, bond_indices repr types = Return ids.
Proof.
  induction 1 as [|t types [i Hi] _ [ids IH]]; cbn [bond_indices]; [by eexists|].
  rewrite Hi, IH. by eexists.
Qed.

(** The first type that is not listed stops the conversion of the types:
    the types before it are found, and the error names it. *)
Lemma bond_indices_first_unknown (known rest : list string) (t : string) :
  Forall (λ t', is_Some (list_index t' bond_types)) known →
  list_index t bond_types = None →
  bond_indices repr (known ++ t :: rest)
  = Raise (ValueError (repr t +:+ " is not in list")).
Proof.
  intros Hknown Hnone. induction Hknown as [|t' known [i Hi] _ IH]; cbn [app bond_indices].
  - by rewrite Hnone.
  - by rewrite Hi, IH.
Qed.

(** Among edges with a type that is not listed there is a first one. *)
Lemma first_unlisted_edge (l : list (Z * Z * string)) :
  Exists (λ e, list_index e.2 bond_types = None) l →
  ∃ before a b t behind,
    l = before ++ (a, b, t) :: behind
    ∧ Forall (λ e, is_Some (list_index e.2 bond_types)) before
    ∧ list_index t bond_types = None.
Proof.
  induction l as [|[[a b] t] l IH]; intros Hex; [by apply Exists_nil in Hex|].
  destruct (list_index t bond_types) as [i|] eqn:Hi.
  - apply Exists_cons in Hex as [Ht|Hex].
    { change (list_index t bond_types = None) in Ht. congruence. }
    destruct (IH Hex) as (before & a' & b' & t' & behind & -> & Hknown & Hnone).
    exists ((a, b, t) :: before), a', b', t', behind.
    split; [done|]. split; [|done]. constructor; [|done].
    change (is_Some (list_index t bond_types)). by rewrite Hi.
  - by exists [], a, b, t, l.
Qed.

(** The parts of the result, before the test on the largest index. *)
Lemma graph_to_dict_unfold mol_string graph :
  graph_to_dict repr mol_string graph
  = match bond_indices repr (flat_map (λ e, [e.2; e.2]) (edges graph)) with
    | Raise e => Raise e
    | Return ids =>
        if bool_decide (edges graph ≠ []) then
          if bool_decide (array_max (np_array_rows (lexsort_rows (doubled_rows (edges graph))))
                          ≠ Some (Z.of_nat (length (nodes graph)) - 1)%Z)
          then Raise (ValueError (unconnected_message mol_string))
          else Return (MolDict ((nodes graph).*2) ids
                         (np_array_rows (lexsort_rows (doubled_rows (edges graph)))))
        else Return (MolDict ((nodes graph).*2) ids (NDArray [0; 2] []))
    end.
Proof.
  unfold graph_to_dict. rewrite edge_loop. simpl. rewrite length_fmap.
  destruct (bond_indices repr _) as [ids|e]; [|done].
  rewrite (bool_decide_ext _ (edges graph ≠ [])); [done|].
  rewrite np_array_rows_size. by rewrite doubled_rows_nil.
Qed.

Lemma sorted_rows_max graph :
  edges graph ≠ [] →
  array_max (np_array_rows (lexsort_rows (doubled_rows (edges graph))))
  = Some (Z.of_nat (length (nodes graph)) - 1)%Z
  ↔ last_atom_bonded graph.
Proof.
  intros Hne.
  assert (Hrows : lexsort_rows (doubled_rows (edges graph)) ≠ []).
  { intros Hnil. apply Hne, doubled_rows_nil.
    apply Permutation_nil_r. by rewrite <- Hnil, lexsort_rows_perm. }
  rewrite np_array_rows_shape by done.
  rewrite array_max_spec; cycle 1.
  { simpl. destruct (lexsort_rows _) as [|row rows]; done. }
  simpl. unfold last_atom_bonded.
  assert (Hmem : ∀ y, y ∈ flat_map (λ row, [row.1; row.2])
                            (lexsort_rows (doubled_rows (edges graph)))
                      ↔ ∃ e, e ∈ edges graph ∧ (y = e.1.1 ∨ y = e.1.2)).
  { intros y. rewrite elem_of_flat_rows. split.
    - intros (row & Hin & Hy). rewrite lexsort_rows_perm in Hin.
      apply elem_of_doubled_rows in Hin as (e & He & [->| ->]); exists e;
        simpl in Hy; (split; [done|]); tauto.
    - intros (e & He & Hy). destruct Hy as [->| ->].
      + exists (e.1.1, e.1.2). rewrite lexsort_rows_perm, elem_of_doubled_rows.
        split; [|by left]. exists e. auto.
      + exists (e.1.2, e.1.1). rewrite lexsort_rows_perm, elem_of_doubled_rows.
        split; [|by left]. exists e. auto. }
  split.
  - intros [Hall Hin]. split.
    + intros e He. split; apply Hall, Hmem; exists e; auto.
    + apply Hmem in Hin as (e & He & Hy). exists e. split; [done|].
      destruct Hy as [->| ->]; auto.
  - intros [Hall (e & He & Hy)]. split.
    + intros y (e' & He' & Hy')%Hmem. destruct (Hall e' He'). destruct Hy' as [->| ->]; done.
    + apply Hmem. exists e. split; [done|]. destruct Hy as [->| ->]; auto.
Qed.
End ConvertStringFacts.

Section ConvertStringResults.
Context (repr : string → string).

Lemma bond_indices_doubled (l : list (Z * Z * string)) (ids' : list nat) :
  bond_indices repr (flat_map (λ e, [e.2; e.2]) l) = Return ids' →
  ∃ ids, ids' = flat_map (λ i, [i; i]) ids
         ∧ Forall2 (λ e i, bond_types !! i = Some e.2) l ids.
Proof.
  revert ids'. induction l as [|e l IH]; intros ids'; cbn [flat_map app bond_indices].
  - intros [= <-]. exists []. split; [done|constructor].
  - destruct (list_index e.2 bond_types) as [i|] eqn:Hi; [|discriminate].
    destruct (bond_indices repr _) as [rest|err]; [|discriminate].
    intros [= <-]. destruct (IH rest eq_refl) as (ids & -> & Hall).
    exists (i :: ids). split; [done|]. constructor; [|done].
    by apply list_index_lookup.
Qed.

Lemma bond_indices_fmap (types : list string) (ids : list nat) :
  bond_indices repr types = Return ids →
  ids = (λ t, default 0 (list_index t bond_types)) <$> types
  ∧ Forall (λ t, is_Some (list_index t bond_types)) types.
Proof.
  revert ids. induction types as [|t types IH]; intros ids; cbn [bond_indices].
  - intros [= <-]. split; [done|constructor].
  - destruct (list_index t bond_types) as [i|] eqn:Hi; [|discriminate].
    destruct (bond_indices repr types) as [rest|err]; [|discriminate].
    intros [= <-]. destruct (IH rest eq_refl) as [-> Hall].
    rewrite fmap_cons, Hi. split; [done|]. constructor; [by eexists|done].
Qed.
End ConvertStringResults.

(** X13.  When [convert_string_to_dict] returns: the atoms are the atomic numbers
    in the order of the nodes; every edge gives its bond type's position in
    [bond_types] twice, in the order of the edges; the connectivity has two
    rows per edge and two columns, its rows are each edge in both
    directions, sorted by the first column and then by the second. *)
Theorem convert_string_to_dict_returns (repr : string → string)
    (convert_string_to_nx : string → outcome nx_graph)
    (mol_string : string) (graph : nx_graph) (d : mol_dict) :
  convert_string_to_nx mol_string = Return graph →
  convert_string_to_dict repr convert_string_to_nx mol_string = Return d →
  atom d = (nodes graph).*2
  ∧ (∃ ids, bond d = flat_map (λ i, [i; i]) ids
            ∧ Forall2 (λ e i, bond_types !! i = Some e.2) (edges graph) ids)
  ∧ shape (connectivity d) = [2 * length (edges graph); 2]
  ∧ ∃ rows, data (connectivity d) = flat_map (λ row, [row.1; row.2]) rows
            ∧ StronglySorted row_le rows
            ∧ rows ≡ₚ doubled_rows (edges graph).
Proof.
  intros Hgraph. unfold convert_string_to_dict. rewrite Hgraph.
  rewrite graph_to_dict_unfold.
  destruct (bond_indices repr _) as [ids'|e] eqn:Hids; [|discriminate].
  apply bond_indices_doubled in Hids as (ids & -> & Hall).
  case_bool_decide as Hne.
  - case_bool_decide; [discriminate|]. intros [= <-]. simpl.
    assert (Hrows : lexsort_rows (doubled_rows (edges graph)) ≠ []).
    { intros Hnil. apply Hne, doubled_rows_nil.
      apply Permutation_nil_r. by rewrite <- Hnil, lexsort_rows_perm. }
    rewrite np_array_rows_shape by done. simpl.
    split; [done|]. split; [by exists ids|]. split.
    + by rewrite lexsort_rows_perm, length_doubled_rows.
    + exists (lexsort_rows (doubled_rows (edges graph))).
      split; [done|]. split; [apply lexsort_rows_sorted|apply lexsort_rows_perm].
  - intros [= <-]. simpl. rewrite Hne in Hall |- *. simpl.
    split; [done|]. split; [by exists ids|]. split; [done|].
    exists []. split; [done|]. split; [constructor|done].
Qed.

Lemma convert_string_to_dict_returns_witness :
  atom (MolDict [6; 6; 8]%Z [2; 2; 3; 3]
          (NDArray [4; 2] [0; 1; 1; 0; 1; 2; 2; 1]%Z)) = (nodes example_graph).*2
  ∧ (∃ ids, [2; 2; 3; 3] = flat_map (λ i, [i; i]) ids
            ∧ Forall2 (λ e i, bond_types !! i = Some e.2) (edges example_graph) ids)
  ∧ [4; 2] = [2 * length (edges example_graph); 2]
  ∧ ∃ rows, [0; 1; 1; 0; 1; 2; 2; 1]%Z = flat_map (λ row, [row.1; row.2]) rows
            ∧ StronglySorted row_le rows
            ∧ rows ≡ₚ doubled_rows (edges example_graph).
Proof.
  apply (convert_string_to_dict_returns example_repr example_convert "CC=O" example_graph
           (MolDict [6; 6; 8]%Z [2; 2; 3; 3]
              (NDArray [4; 2] [0; 1; 1; 0; 1; 2; 2; 1]%Z))).
  - reflexivity.
  - reflexivity.
Defined.

(** X14.  A molecule without bonds is returned with no bond and an empty
    connectivity of shape (0, 2), however many atoms it has: the test on
    unconnected atoms is not made. *)
Theorem convert_string_to_dict_no_bonds (repr : string → string)
    (convert_string_to_nx : string → outcome nx_graph)
    (mol_string : string) (graph : nx_graph) :
  convert_string_to_nx mol_string = Return graph → edges graph = [] →
  convert_string_to_dict repr convert_string_to_nx mol_string
  = Return (MolDict ((nodes graph).*2) [] (NDArray [0; 2] [])).
Proof.
  intros Hgraph Hedges. unfold convert_string_to_dict. rewrite Hgraph.
  rewrite graph_to_dict_unfold, Hedges. done.
Qed.

Lemma convert_string_to_dict_no_bonds_witness :
  convert_string_to_dict example_repr example_convert "[Na+].[Cl-]"
  = Return (MolDict [11; 17]%Z [] (NDArray [0; 2] [])).
Proof.
  apply (convert_string_to_dict_no_bonds example_repr example_convert "[Na+].[Cl-]"
           (NxGraph [(0, 11); (1, 17)]%Z [])).
  - reflexivity.
  - reflexivity.
Defined.

(** X15.  For a molecule with bonds, all of types listed in [bond_types]: the
    function returns when the largest atom index named by a bond is the
    index of the last atom, and raises the [ValueError] about unconnected
    atoms otherwise, in particular when the last atom has no bond. *)
Theorem convert_string_to_dict_last_atom (repr : string → string)
    (convert_string_to_nx : string → outcome nx_graph)
    (mol_string : string) (graph : nx_graph) :
  convert_string_to_nx mol_string = Return graph → edges graph ≠ [] →
  Forall (λ e, is_Some (list_index e.2 bond_types)) (edges graph) →
  (last_atom_bonded graph →
     ∃ d, convert_string_to_dict repr convert_string_to_nx mol_string = Return d)
  ∧ (¬ last_atom_bonded graph →
     convert_string_to_dict repr convert_string_to_nx mol_string
     = Raise (ValueError (unconnected_message mol_string))).
Proof.
  intros Hgraph Hne Hknown. unfold convert_string_to_dict. rewrite Hgraph.
  rewrite graph_to_dict_unfold.
  destruct (bond_indices_known repr (flat_map (λ e, [e.2; e.2]) (edges graph)))
    as [ids ->].
  { apply Forall_forall. intros t Ht. apply list_elem_of_In, in_flat_map in Ht
      as (e & He & Ht). rewrite Forall_forall in Hknown.
    apply list_elem_of_In in He. specialize (Hknown e He).
    simpl in Ht. destruct Ht as [<-|[<-|[]]]; done. }
  rewrite bool_decide_eq_true_2 by done. split.
  - intros Hlast. apply sorted_rows_max in Hlast; [|done].
    rewrite bool_decide_eq_false_2 by (by intros ?). by eexists.
  - intros Hnot. rewrite bool_decide_eq_true_2; [done|].
    intros Hmax. by apply Hnot, sorted_rows_max.
Qed.

Lemma convert_string_to_dict_last_atom_witness :
  convert_string_to_dict example_repr example_convert "CC.[Na]"
  = Raise (ValueError (unconnected_message "CC.[Na]")).
Proof.
  refine (proj2 (convert_string_to_dict_last_atom example_repr example_convert "CC.[Na]"
                   (NxGraph [(0, 6); (1, 6); (2, 11)]%Z [(0, 1, "SINGLE")]%Z) _ _ _) _).
  - reflexivity.
  - discriminate.
  - repeat constructor; by eexists.
  - intros [_ (e & He & Hlast)]. simpl in He.
    apply list_elem_of_singleton in He as ->. simpl in Hlast. lia.
Defined.

(** X16.  A bond whose type is not listed in [bond_types] makes the function
    raise the [ValueError] of [list.index] for the first such type in the
    order of the edges, whether or not the atoms are connected: the edges
    split into edges of listed types, the edge whose type the error names,
    and the edges behind it. *)
Theorem convert_string_to_dict_unknown_bond (repr : string → string)
    (convert_string_to_nx : string → outcome nx_graph)
    (mol_string : string) (graph : nx_graph) :
  convert_string_to_nx mol_string = Return graph →
  Exists (λ e, list_index e.2 bond_types = None) (edges graph) →
  ∃ before a b t behind,
    edges graph = before ++ (a, b, t) :: behind
    ∧ Forall (λ e, is_Some (list_index e.2 bond_types)) before
    ∧ list_index t bond_types = None
    ∧ convert_string_to_dict repr convert_string_to_nx mol_string
      = Raise (ValueError (repr t +:+ " is not in list")).
Proof.
  intros Hgraph Hex. unfold convert_string_to_dict. rewrite Hgraph.
  rewrite graph_to_dict_unfold.
  destruct (first_unlisted_edge (edges graph) Hex)
    as (before & a & b & t & behind & Hedges & Hknown & Hnone).
  exists before, a, b, t, behind. repeat split; [done..|].
  rewrite Hedges, flat_map_app. cbn [flat_map app]. simpl.
  rewrite (bond_indices_first_unknown repr
             (flat_map (λ e : Z * Z * string, [e.2; e.2]) before) _ t); [done| |done].
  apply Forall_flat_map. eapply Forall_impl; [exact Hknown|].
  intros e He. by repeat constructor.
Qed.

Lemma convert_string_to_dict_unknown_bond_witness :
  ∃ before a b t behind,
    [(0, 1, "SINGLE"); (1, 2, "QUADRUPLE"); (2, 3, "QUINTUPLE")]%Z
    = before ++ (a, b, t) :: behind
    ∧ Forall (λ e : Z * Z * string, is_Some (list_index e.2 bond_types)) before
    ∧ list_index t bond_types = None
    ∧ convert_string_to_dict example_repr example_convert_unlisted "C[Re][Re][Re]"
      = Raise (ValueError (example_repr t +:+ " is not in list")).
Proof.
  apply (convert_string_to_dict_unknown_bond example_repr example_convert_unlisted
           "C[Re][Re][Re]" example_unlisted_graph).
  - reflexivity.
  - right. left. reflexivity.
Defined.

(** X17.  The connectivity does not depend on the order in which the graph lists
    its edges, while the bond list follows that order: two graphs with the
    same nodes and the same edges in another order give the same atoms and
    the same connectivity, and bond lists that are rearrangements of each
    other. *)
Theorem convert_string_to_dict_edge_order (repr : string → string)
    (convert_string_to_nx : string → outcome nx_graph)
    (mol_string mol_string' : string) (graph graph' : nx_graph) (d : mol_dict) :
  convert_string_to_nx mol_string = Return graph →
  convert_string_to_nx mol_string' = Return graph' →
  nodes graph' = nodes graph → edges graph' ≡ₚ edges graph →
  convert_string_to_dict repr convert_string_to_nx mol_string = Return d →
  ∃ d', convert_string_to_dict repr convert_string_to_nx mol_string' = Return d'
        ∧ atom d' = atom d ∧ connectivity d' = connectivity d
        ∧ bond d' ≡ₚ bond d.
Proof.
  intros Hgraph Hgraph' Hnodes Hedges. unfold convert_string_to_dict.
  rewrite Hgraph, Hgraph', !graph_to_dict_unfold.
  assert (Htypes : flat_map (λ e : Z * Z * string, [e.2; e.2]) (edges graph')
                   ≡ₚ flat_map (λ e, [e.2; e.2]) (edges graph)).
  { by apply Permutation_flat_map. }
  assert (Hrows : doubled_rows (edges graph') ≡ₚ doubled_rows (edges graph)).
  { by apply Permutation_flat_map. }
  destruct (bond_indices repr (flat_map _ (edges graph))) as [ids|e] eqn:Hids;
    [|discriminate].
  apply bond_indices_fmap in Hids as [-> Hknown].
  destruct (bond_indices_known repr (flat_map (λ e, [e.2; e.2]) (edges graph')))
    as [ids' Hids']; [by rewrite Htypes|].
  rewrite Hids'. apply bond_indices_fmap in Hids' as [-> _].
  rewrite (lexsort_rows_order _ _ Hrows), Hnodes.
  assert (Hnil : edges graph' ≠ [] ↔ edges graph ≠ []).
  { split; intros H Hnil; apply H; apply Permutation_nil_r;
      [by rewrite <- Hnil, Hedges|by rewrite <- Hnil, <- Hedges]. }
  rewrite (bool_decide_ext _ _ Hnil).
  case_bool_decide.
  - case_bool_decide; [discriminate|]. intros [= <-]. eexists. split; [done|].
    simpl. repeat split. by rewrite Htypes.
  - intros [= <-]. eexists. split; [done|]. simpl. repeat split. by rewrite Htypes.
Qed.

Lemma convert_string_to_dict_edge_order_witness :
  ∃ d', convert_string_to_dict example_repr example_convert "O=CC" = Return d'
        ∧ atom d' = [6; 6; 8]%Z
        ∧ connectivity d' = NDArray [4; 2] [0; 1; 1; 0; 1; 2; 2; 1]%Z
        ∧ bond d' ≡ₚ [2; 2; 3; 3].
Proof.
  apply (convert_string_to_dict_edge_order example_repr example_convert "CC=O" "O=CC"
           example_graph
           (NxGraph [(0, 6); (1, 6); (2, 8)]%Z [(0, 1, "SINGLE"); (1, 2, "DOUBLE")]%Z)
           (MolDict [6; 6; 8]%Z [2; 2; 3; 3]
              (NDArray [4; 2] [0; 1; 1; 0; 1; 2; 2; 1]%Z))).
  - reflexivity.
  - reflexivity.
  - reflexivity.
  - apply Permutation_swap.
  - reflexivity.
Defined.

(** ** Strings and dictionaries *)

Lemma str_split_length (c : Ascii.ascii) (s : string) :
  length (str_split c s) = S (str_count c s).
Proof.
  induction s as [|x s IH]; [done|]. simpl. case_decide; simpl; [by rewrite IH|].
  destruct (str_split c s); simpl in *; lia.
Qed.

Lemma str_split_no_separator (c : Ascii.ascii) (s : string) :
  str_count c s = 0 → str_split c s = [s].
Proof.
  induction s as [|x s IH]; [done|]. simpl. case_decide; [done|].
  intros Hs. by rewrite IH.
Qed.

Lemma str_split_app (c : Ascii.ascii) (s t : string) :
  str_count c s = 0 → str_split c (s +:+ String c t) = s :: str_split c t.
Proof.
  induction s as [|x s IH]; simpl.
  - intros _. by rewrite decide_True.
  - case_decide; [done|]. intros Hs. by rewrite IH.
Qed.

Lemma str_count_app (c : Ascii.ascii) (s t : string) :
  str_count c (s +:+ t) = str_count c s + str_count c t.
Proof. induction s as [|x s IH]; simpl; [done|]. rewrite IH. lia. Qed.

Lemma str_last_cons (part : string) (parts : list string) :
  parts ≠ [] → str_last (part :: parts) = str_last parts.
Proof. unfold str_last. by destruct parts. Qed.

Lemma str_last_split_app (c : Ascii.ascii) (s t : string) :
  str_last (str_split c (s +:+ String c t)) = str_last (str_split c t).
Proof.
  induction s as [|x s IH]; simpl.
  - rewrite decide_True by done. apply str_last_cons.
    intros Hnil. pose proof (str_split_length c t) as Hlen.
    rewrite Hnil in Hlen. done.
  - pose proof (str_split_length c (s +:+ String c t)) as Hlen.
    rewrite str_count_app in Hlen. simpl in Hlen. rewrite decide_True in Hlen by done.
    case_decide.
    + rewrite str_last_cons; [done|]. intros Hnil. by rewrite Hnil in Hlen.
    + destruct (str_split c (s +:+ String c t)) as [|part [|part' parts]];
        simpl in Hlen; [lia|lia|].
      rewrite <- IH. done.
Qed.

Lemma dict_get_set {V : Type} (key : string) (v : V) (d : list (string * V)) :
  dict_get key (dict_set key v d) = Some v.
Proof.
  induction d as [|[k v'] d IH]; simpl; [by rewrite decide_True|].
  case_decide; simpl; [by rewrite decide_True|by rewrite decide_False].
Qed.

Lemma dict_get_set_ne {V : Type} (key key' : string) (v : V) (d : list (string * V)) :
  key ≠ key' → dict_get key' (dict_set key v d) = dict_get key' d.
Proof.
  intros Hne. induction d as [|[k v'] d IH]; simpl; [by rewrite decide_False|].
  case_decide; simpl; [subst; by rewrite !decide_False|].
  case_decide; [done|apply IH].
Qed.

Lemma dict_get_merge_absent {V : Type} (key : string) (d more : list (string * V)) :
  key ∉ more.*1 → dict_get key (dict_merge d more) = dict_get key d.
Proof.
  unfold dict_merge. revert d. induction more as [|[k v] more IH]; intros d Hkey; [done|].
  simpl in *. apply not_elem_of_cons in Hkey as [Hne Hkey].
  rewrite IH by done. by apply dict_get_set_ne.
Qed.

Lemma dict_get_merge_present {V : Type} (key : string) (v : V)
    (d more : list (string * V)) :
  NoDup more.*1 → (key, v) ∈ more → dict_get key (dict_merge d more) = Some v.
Proof.
  revert d. induction more as [|[k v'] more IH]; intros d Hdup Hin.
  - by apply elem_of_nil in Hin.
  - change (dict_merge d ((k, v') :: more)) with (dict_merge (dict_set k v' d) more).
    simpl in Hdup. apply NoDup_cons in Hdup as [Hk Hdup].
    apply elem_of_cons in Hin as [[= -> ->]|Hin].
    + rewrite (dict_get_merge_absent k _ more Hk). apply dict_get_set.
    + by apply IH.
Qed.

(** ** [ASESimulator.create_configuration] *)

(** A key is none of the listed ones. *)
Ltac key_absent :=
  let Hin := fresh "Hin" in
  intros Hin;
  repeat (apply elem_of_cons in Hin as [Hin|Hin]; [discriminate Hin|]);
  by apply elem_of_nil in Hin.

Section SimulatorFacts.
Context `{Environment}.

Lemma prefix_first (a : Ascii.ascii) (s name : string) :
  String.prefix (String a s) name = true → ∃ rest, name = String a rest.
Proof.
  destruct name as [|b rest]; simpl; [done|].
  destruct (Ascii.ascii_dec a b) as [->|]; [by eexists|done].
Qed.

Lemma prefix_app (s t : string) : String.prefix s (s +:+ t) = true.
Proof.
  induction s as [|a s IH]; simpl; [by destruct t|].
  by destruct (Ascii.ascii_dec a a).
Qed.

Lemma cutoff_lookup_keys (basis : string) :
  is_Some (dict_get basis _cutoff_lookup)
  ↔ basis ∈ ["TZVP-GTH"; "DZVP-GTH"; "SZV-GTH"].
Proof.
  rewrite !elem_of_cons, elem_of_nil. unfold _cutoff_lookup. cbn [dict_get].
  repeat case_decide; subst; split.
  all: try (intros _; by eexists).
  all: try (intros _; eauto 6; fail).
  - by intros [? [=]].
  - intros [? | [? | [? | []]]]; congruence.
Qed.

Lemma solv_data_keys (solvent : string) :
  is_Some (dict_get solvent _solv_data) ↔ solvent = "acn".
Proof.
  unfold _solv_data. cbn [dict_get]. case_decide; subst; split; eauto.
  - by intros [? [=]].
  - congruence.
Qed.

Lemma gaussian_name_branch (name : string) :
  String.prefix "gaussian_" name = true →
  name ≠ "xtb" ∧ String.prefix "mopac_" name = false.
Proof. intros Hprefix. apply prefix_first in Hprefix as [rest ->]. by split. Qed.

(** The branch of the Gaussian names, once the name and the first line of
    the structure are accepted. *)
Lemma gaussian_configuration (self : ASESimulator) (name xyz : string) (charge n : Z)
    (solvent : option string) (kwargs : list (string * value)) :
  String.prefix "gaussian_" name = true →
  str_count underscore name = 2 →
  int_of_string (hd EmptyString (str_split newline xyz)) = Some n →
  ∃ head xc basis,
    str_split underscore name = [head; xc; basis]
    ∧ create_configuration self name xyz charge solvent kwargs
      = Returned (VDict [
          ("name", VStr "gaussian");
          ("use_gaussian_opt", VBool (bool_decide (n ≤ 50)%Z));
          ("kwargs",
           VDict (dict_merge
                    (dict_merge
                       [("command", VStr (gaussian_command self));
                        ("chk", VStr "gauss.chk");
                        ("basis", VStr basis);
                        ("method", VStr xc);
                        ("charge", VInt charge);
                        ("mult", VInt (Z.abs charge + 1))]
                       ((if bool_decide (50 < n)%Z
                         then dict_set "ioplist" (VList [VStr "2/9=2000"])
                         else id)
                          (dict_set "scf" (VStr "xqc,MaxConventional=200")
                             match solvent with
                             | Some solvent =>
                                 dict_set "SCRF"
                                   (VStr ("PCM,Solvent="
                                          +:+ default solvent
                                                (dict_get solvent _gaussian_solv_names)))
                                   []
                             | None => []
                             end)))
                    kwargs))]).
Proof.
  intros Hprefix Hcount Hint.
  pose proof (str_split_length underscore name) as Hlen. rewrite Hcount in Hlen.
  destruct (str_split underscore name) as [|head [|xc [|basis [|]]]] eqn:Hsplit;
    try discriminate.
  exists head, xc, basis. split; [done|].
  destruct (gaussian_name_branch name Hprefix) as [Hxtb Hmopac].
  unfold create_configuration.
  rewrite decide_False by done. rewrite Hmopac, Hprefix, Hcount, Hsplit, Hint.
  rewrite bool_decide_false by (intros Hne; by apply Hne).
  destruct solvent, (bool_decide (50 < n)%Z); reflexivity.
Qed.
End SimulatorFacts.

(** X18.  A name that is not [xtb] and starts with none of [mopac_],
    [gaussian_] and [cp2k_blyp] raises nothing: [create_configuration]
    returns [None]. *)
Theorem create_configuration_unknown_name `{Environment} (self : ASESimulator)
    (name xyz : string) (charge : Z) (solvent : option string)
    (kwargs : list (string * value)) :
  name ≠ "xtb" →
  String.prefix "mopac_" name = false →
  String.prefix "gaussian_" name = false →
  String.prefix "cp2k_blyp" name = false →
  create_configuration self name xyz charge solvent kwargs = Returned VNone.
Proof.
  intros Hxtb Hmopac Hgaussian Hcp2k. unfold create_configuration.
  rewrite decide_False by done. by rewrite Hmopac, Hgaussian, Hcp2k.
Qed.

Lemma create_configuration_unknown_name_witness :
  create_configuration (H := example_environment) example_simulator
    "cp2k_pbe_dzvp" "3" 0 (Some "acn") [] = Returned VNone.
Proof.
  apply (create_configuration_unknown_name (H := example_environment)).
  - discriminate.
  - reflexivity.
  - reflexivity.
  - reflexivity.
Defined.

(** X19.  Only the Gaussian names use the structure and the keyword
    arguments of the caller: for every other name the result is the same
    whatever [xyz] and [kwargs] are. *)
Theorem create_configuration_ignores_xyz_kwargs `{Environment} (self : ASESimulator)
    (name xyz xyz' : string) (charge : Z) (solvent : option string)
    (kwargs kwargs' : list (string * value)) :
  String.prefix "gaussian_" name = false →
  create_configuration self name xyz charge solvent kwargs
  = create_configuration self name xyz' charge solvent kwargs'.
Proof. intros Hgaussian. unfold create_configuration. by rewrite Hgaussian. Qed.

Lemma create_configuration_ignores_xyz_kwargs_witness :
  create_configuration (H := example_environment) example_simulator
    "xtb" "3" 0 None [("accuracy", VInt 1)]
  = create_configuration (H := example_environment) example_simulator
      "xtb" "60" 0 None [].
Proof.
  apply (create_configuration_ignores_xyz_kwargs (H := example_environment)).
  reflexivity.
Defined.

(** X20.  A Gaussian name whose number of underscores is not two raises
    the [ValueError] on the separators, before the structure is read: also
    where its first line is no integer. *)
Theorem gaussian_wrong_separators `{Environment} (self : ASESimulator)
    (name xyz : string) (charge : Z) (solvent : option string)
    (kwargs : list (string * value)) :
  String.prefix "gaussian_" name = true →
  str_count underscore name ≠ 2 →
  create_configuration self name xyz charge solvent kwargs
  = Failed (RaisedValueError separators_message).
Proof.
  intros Hprefix Hcount.
  destruct (gaussian_name_branch name Hprefix) as [Hxtb Hmopac].
  unfold create_configuration. rewrite decide_False by done.
  rewrite Hmopac, Hprefix. by rewrite bool_decide_true.
Qed.

Lemma gaussian_wrong_separators_witness :
  create_configuration (H := example_environment) example_simulator
    "gaussian_b3lyp_6_31g" "no structure" 0 None []
  = Failed (RaisedValueError separators_message).
Proof.
  apply (gaussian_wrong_separators (H := example_environment)).
  - reflexivity.
  - vm_compute. lia.
Defined.

(** X21.  The name [gaussian_<method>_<basis>] is taken apart again.  Where
    neither part holds an underscore, the configuration has, for each of the
    keys [method], [basis], [command], [charge] and [mult] that the caller
    does not pass by keyword: the method and the basis as given in the name,
    the command of the simulator, the charge, and the multiplicity
    [abs(charge) + 1].  A key that the caller passes is not covered: there
    the value of the caller stands. *)
Theorem gaussian_name_round_trip `{Environment} (self : ASESimulator)
    (xc basis xyz : string) (charge n : Z) (solvent : option string)
    (kwargs : list (string * value)) :
  str_count underscore xc = 0 →
  str_count underscore basis = 0 →
  int_of_string (hd EmptyString (str_split newline xyz)) = Some n →
  ∃ opt kw,
    create_configuration self ("gaussian_" +:+ xc +:+ "_" +:+ basis) xyz charge
      solvent kwargs
    = Returned (VDict [("name", VStr "gaussian"); ("use_gaussian_opt", VBool opt);
                       ("kwargs", VDict kw)])
    ∧ ("method" ∉ kwargs.*1 → dict_get "method" kw = Some (VStr xc))
    ∧ ("basis" ∉ kwargs.*1 → dict_get "basis" kw = Some (VStr basis))
    ∧ ("command" ∉ kwargs.*1
       → dict_get "command" kw = Some (VStr (gaussian_command self)))
    ∧ ("charge" ∉ kwargs.*1 → dict_get "charge" kw = Some (VInt charge))
    ∧ ("mult" ∉ kwargs.*1 → dict_get "mult" kw = Some (VInt (Z.abs charge + 1))).
Proof.
  intros Hxc Hbasis Hint.
  assert (Hsplit : str_split underscore ("gaussian_" +:+ xc +:+ "_" +:+ basis)
                   = ["gaussian"; xc; basis]).
  { change ("gaussian_" +:+ xc +:+ "_" +:+ basis)
      with ("gaussian" +:+ String underscore (xc +:+ String underscore basis)).
    rewrite str_split_app by reflexivity. rewrite str_split_app by done.
    by rewrite str_split_no_separator. }
  destruct (gaussian_configuration self ("gaussian_" +:+ xc +:+ "_" +:+ basis) xyz
              charge n solvent kwargs) as (head & xc' & basis' & Hsplit' & ->);
    [apply prefix_app| |done|].
  { pose proof (str_split_length underscore ("gaussian_" +:+ xc +:+ "_" +:+ basis))
      as Hlen.
    rewrite Hsplit in Hlen. cbn [length] in Hlen. lia. }
  rewrite Hsplit in Hsplit'. injection Hsplit' as <- <- <-.
  eexists _, _. split; [reflexivity|].
  repeat split.
  all: intros Hkey; rewrite dict_get_merge_absent by exact Hkey.
  all: rewrite dict_get_merge_absent; [reflexivity|].
  all: destruct solvent, (bool_decide (50 < n)%Z); simpl; key_absent.
Qed.

Lemma gaussian_name_round_trip_witness :
  ∃ opt kw,
    create_configuration (H := example_environment) example_simulator
      ("gaussian_" +:+ "b3lyp" +:+ "_" +:+ "6-31g(2df,p)") "3" (-1) (Some "acn")
      [("scf", VStr "tight"); ("mult", VInt 4)]
    = Returned (VDict [("name", VStr "gaussian"); ("use_gaussian_opt", VBool opt);
                       ("kwargs", VDict kw)])
    ∧ ("method" ∉ ["scf"; "mult"]
       → dict_get "method" kw = Some (VStr "b3lyp"))
    ∧ ("basis" ∉ ["scf"; "mult"]
       → dict_get "basis" kw = Some (VStr "6-31g(2df,p)"))
    ∧ ("command" ∉ ["scf"; "mult"]
       → dict_get "command" kw = Some (VStr "g16 < PREFIX.com > PREFIX.log"))
    ∧ ("charge" ∉ ["scf"; "mult"]
       → dict_get "charge" kw = Some (VInt (-1)))
    ∧ ("mult" ∉ ["scf"; "mult"]
       → dict_get "mult" kw = Some (VInt (Z.abs (-1) + 1))).
Proof.
  apply (gaussian_name_round_trip (H := example_environment) example_simulator
           "b3lyp" "6-31g(2df,p)" "3" (-1) 3 (Some "acn")
           [("scf", VStr "tight"); ("mult", VInt 4)]).
  - reflexivity.
  - reflexivity.
  - reflexivity.
Defined.

(** X22.  The threshold of 50 atoms: a Gaussian configuration asks for the
    optimizer of Gaussian exactly when the first line of the structure gives
    at most 50 atoms, and exactly then it has no [ioplist] option, unless the
    caller supplies one. *)
Theorem gaussian_large_molecule_options `{Environment} (self : ASESimulator)
    (name xyz : string) (charge n : Z) (solvent : option string)
    (kwargs : list (string * value)) :
  String.prefix "gaussian_" name = true →
  str_count underscore name = 2 →
  int_of_string (hd EmptyString (str_split newline xyz)) = Some n →
  "ioplist" ∉ kwargs.*1 →
  ∃ opt kw,
    create_configuration self name xyz charge solvent kwargs
    = Returned (VDict [("name", VStr "gaussian"); ("use_gaussian_opt", VBool opt);
                       ("kwargs", VDict kw)])
    ∧ (opt = true ↔ (n ≤ 50)%Z)
    ∧ (dict_get "ioplist" kw = None ↔ (n ≤ 50)%Z)
    ∧ ((50 < n)%Z → dict_get "ioplist" kw = Some (VList [VStr "2/9=2000"])).
Proof.
  intros Hprefix Hcount Hint Hkey.
  destruct (gaussian_configuration self name xyz charge n solvent kwargs)
    as (head & xc & basis & _ & ->); [done..|].
  eexists _, _. split; [reflexivity|].
  rewrite dict_get_merge_absent by done.
  split; [apply bool_decide_eq_true|].
  case_bool_decide as Hn.
  - split; [|intros _; destruct solvent; reflexivity].
    split; [|lia]. intros Hnone. destruct solvent; discriminate Hnone.
  - split; [|lia]. split; [lia|]. intros _. destruct solvent; reflexivity.
Qed.

Lemma gaussian_large_molecule_options_witness :
  ∃ opt kw,
    create_configuration (H := example_environment) example_simulator
      "gaussian_b3lyp_6-31g" "60" 0 None []
    = Returned (VDict [("name", VStr "gaussian"); ("use_gaussian_opt", VBool opt);
                       ("kwargs", VDict kw)])
    ∧ (opt = true ↔ (60 ≤ 50)%Z)
    ∧ (dict_get "ioplist" kw = None ↔ (60 ≤ 50)%Z)
    ∧ ((50 < 60)%Z → dict_get "ioplist" kw = Some (VList [VStr "2/9=2000"])).
Proof.
  apply (gaussian_large_molecule_options (H := example_environment) example_simulator
           "gaussian_b3lyp_6-31g" "60" 0 60 None []).
  - reflexivity.
  - reflexivity.
  - reflexivity.
  - apply not_elem_of_nil.
Defined.

(** X23.  What the caller passes by keyword wins: in a Gaussian
    configuration every keyword argument of the caller appears with the
    value of the caller, also where the method sets that key itself. *)
Theorem gaussian_kwargs_override `{Environment} (self : ASESimulator)
    (name xyz : string) (charge n : Z) (solvent : option string)
    (kwargs : list (string * value)) (key : string) (v : value) :
  String.prefix "gaussian_" name = true →
  str_count underscore name = 2 →
  int_of_string (hd EmptyString (str_split newline xyz)) = Some n →
  NoDup kwargs.*1 →
  (key, v) ∈ kwargs →
  ∃ opt kw,
    create_configuration self name xyz charge solvent kwargs
    = Returned (VDict [("name", VStr "gaussian"); ("use_gaussian_opt", VBool opt);
                       ("kwargs", VDict kw)])
    ∧ dict_get key kw = Some v.
Proof.
  intros Hprefix Hcount Hint Hdup Hin.
  destruct (gaussian_configuration self name xyz charge n solvent kwargs)
    as (head & xc & basis & _ & ->); [done..|].
  eexists _, _. split; [reflexivity|]. by apply dict_get_merge_present.
Qed.

Lemma gaussian_kwargs_override_witness :
  ∃ opt kw,
    create_configuration (H := example_environment) example_simulator
      "gaussian_b3lyp_6-31g" "3" 0 None [("mult", VInt 3); ("scf", VStr "tight")]
    = Returned (VDict [("name", VStr "gaussian"); ("use_gaussian_opt", VBool opt);
                       ("kwargs", VDict kw)])
    ∧ dict_get "mult" kw = Some (VInt 3).
Proof.
  apply (gaussian_kwargs_override (H := example_environment) example_simulator
           "gaussian_b3lyp_6-31g" "3" 0 3 None
           [("mult", VInt 3); ("scf", VStr "tight")] "mult" (VInt 3)).
  - reflexivity.
  - reflexivity.
  - reflexivity.
  - simpl. apply NoDup_cons. split; [key_absent|]. apply NoDup_singleton.
  - apply list_elem_of_here.
Defined.

(** X24.  A Gaussian configuration accepts every solvent: [acn] is named
    [acetonitrile] in the [SCRF] option, any other name is passed on as it
    is, and without a solvent there is no [SCRF] option (unless the caller
    supplies one). *)
Theorem gaussian_solvent_option `{Environment} (self : ASESimulator)
    (name xyz : string) (charge n : Z) (solvent : option string)
    (kwargs : list (string * value)) :
  String.prefix "gaussian_" name = true →
  str_count underscore name = 2 →
  int_of_string (hd EmptyString (str_split newline xyz)) = Some n →
  "SCRF" ∉ kwargs.*1 →
  ∃ opt kw,
    create_configuration self name xyz charge solvent kwargs
    = Returned (VDict [("name", VStr "gaussian"); ("use_gaussian_opt", VBool opt);
                       ("kwargs", VDict kw)])
    ∧ dict_get "SCRF" kw
      = (λ s : string,
           VStr ("PCM,Solvent=" +:+ if decide (s = "acn") then "acetonitrile" else s))
          <$> solvent.
Proof.
  intros Hprefix Hcount Hint Hkey.
  destruct (gaussian_configuration self name xyz charge n solvent kwargs)
    as (head & xc & basis & _ & ->); [done..|].
  eexists _, _. split; [reflexivity|].
  rewrite dict_get_merge_absent by done.
  destruct solvent as [s|], (bool_decide (50 < n)%Z); try reflexivity.
  all: simpl; rewrite (decide_ext ("acn" = s) (s = "acn")) by done.
  all: by case_decide.
Qed.

Lemma gaussian_solvent_option_witness :
  ∃ opt kw,
    create_configuration (H := example_environment) example_simulator
      "gaussian_b3lyp_6-31g" "3" 0 (Some "water") []
    = Returned (VDict [("name", VStr "gaussian"); ("use_gaussian_opt", VBool opt);
                       ("kwargs", VDict kw)])
    ∧ dict_get "SCRF" kw = Some (VStr "PCM,Solvent=water").
Proof.
  apply (gaussian_solvent_option (H := example_environment) example_simulator
           "gaussian_b3lyp_6-31g" "3" 0 3 (Some "water") []).
  - reflexivity.
  - reflexivity.
  - reflexivity.
  - apply not_elem_of_nil.
Defined.

(** X25.  xTB and MOPAC refuse a solvent they do not know with a
    [ValueError]. *)
Theorem unknown_solvent_value_error `{Environment} (self : ASESimulator)
    (name xyz solvent : string) (charge : Z) (kwargs : list (string * value)) :
  name = "xtb" ∨ String.prefix "mopac_" name = true →
  solvent ≠ "acn" →
  create_configuration self name xyz charge (Some solvent) kwargs
  = Failed (RaisedValueError ("Solvent not defined: " +:+ solvent)).
Proof.
  intros [->|Hprefix] Hsolvent; unfold create_configuration.
  - rewrite decide_True by done. simpl. by rewrite decide_False.
  - apply prefix_first in Hprefix as Hname. destruct Hname as [rest ->].
    rewrite decide_False by done. rewrite Hprefix. simpl. by rewrite decide_False.
Qed.

Lemma unknown_solvent_value_error_witness :
  create_configuration (H := example_environment) example_simulator
    "mopac_pm7" "3" 0 (Some "water") []
  = Failed (RaisedValueError ("Solvent not defined: " +:+ "water")).
Proof.
  apply (unknown_solvent_value_error (H := example_environment)).
  - right. reflexivity.
  - discriminate.
Defined.

(** X26.  The MOPAC method is the part of the name behind its last
    underscore, in upper case; with the solvent [acn] the task also carries
    its permittivity. *)
Theorem mopac_method_last_part `{Environment} (self : ASESimulator)
    (front method xyz : string) (charge : Z) (solvent : option string)
    (kwargs : list (string * value)) :
  String.prefix "mopac_" (front +:+ "_" +:+ method) = true →
  str_count underscore method = 0 →
  solvent = None ∨ solvent = Some "acn" →
  create_configuration self (front +:+ "_" +:+ method) xyz charge solvent kwargs
  = Returned (VDict [
      ("name", VStr "mopac");
      ("kwargs",
       VDict [("method", VStr (str_upper method));
              ("task",
               VStr match solvent with
                    | None => "1SCF GRADIENTS"
                    | Some _ =>
                        "1SCF GRADIENTS EPS=" +:+ float_format (float_of_literal "37.5")
                    end)])]).
Proof.
  intros Hprefix Hmethod Hsolvent.
  assert (Hlast : str_last (str_split underscore (front +:+ "_" +:+ method)) = method).
  { change (front +:+ "_" +:+ method) with (front +:+ String underscore method).
    rewrite str_last_split_app. by rewrite str_split_no_separator. }
  apply prefix_first in Hprefix as Hname. destruct Hname as [rest Hname].
  unfold create_configuration. rewrite Hlast, Hprefix, Hname.
  rewrite decide_False by done.
  by destruct Hsolvent as [->| ->].
Qed.

Lemma mopac_method_last_part_witness :
  create_configuration (H := example_environment) example_simulator
    ("mopac_pm6" +:+ "_" +:+ "d3h4") "3" 0 (Some "acn") []
  = Returned (VDict [
      ("name", VStr "mopac");
      ("kwargs",
       VDict [("method", VStr (str_upper "d3h4"));
              ("task", VStr ("1SCF GRADIENTS EPS=" +:+ "37.5"))])]).
Proof.
  apply (mopac_method_last_part (H := example_environment) example_simulator
           "mopac_pm6" "d3h4" "3" 0 (Some "acn") []).
  - reflexivity.
  - reflexivity.
  - by right.
Defined.

(** X27.  A name that starts with [cp2k_blyp] gives a CP2K configuration
    exactly when the part behind its last underscore, in upper case and
    followed by [-GTH], is one of the three basis sets with a cutoff, and the
    solvent is absent or [acn].  In every other case an [AssertionError] is
    raised. *)
Theorem cp2k_configuration_or_assertion `{Environment} (self : ASESimulator)
    (name xyz : string) (charge : Z) (solvent : option string)
    (kwargs : list (string * value)) :
  String.prefix "cp2k_blyp" name = true →
  ((∃ cfg, create_configuration self name xyz charge solvent kwargs = Returned cfg
           ∧ value_item "name" cfg = Some (VStr "cp2k"))
   ↔ str_upper (str_last (str_split underscore name) +:+ "-GTH")
       ∈ ["TZVP-GTH"; "DZVP-GTH"; "SZV-GTH"]
     ∧ (solvent = None ∨ solvent = Some "acn"))
  ∧ (¬ (str_upper (str_last (str_split underscore name) +:+ "-GTH")
          ∈ ["TZVP-GTH"; "DZVP-GTH"; "SZV-GTH"]
        ∧ (solvent = None ∨ solvent = Some "acn"))
     → ∃ msg, create_configuration self name xyz charge solvent kwargs
              = Failed (RaisedAssertionError msg)).
Proof.
  intros Hprefix.
  apply prefix_first in Hprefix as Hname. destruct Hname as [rest Hname].
  unfold create_configuration. rewrite Hprefix.
  generalize (str_upper (str_last (str_split underscore name) +:+ "-GTH")).
  intros basis. rewrite Hname. rewrite decide_False by done.
  change (String.prefix "mopac_" (String _ rest)) with false.
  change (String.prefix "gaussian_" (String _ rest)) with false. cbv iota.
  pose proof (cutoff_lookup_keys basis) as Hbasis.
  destruct (dict_get basis _cutoff_lookup) as [cutoff|].
  - destruct solvent as [s|].
    + pose proof (solv_data_keys s) as Hs.
      destruct (dict_get s _solv_data) as [[gamma e0]|].
      * assert (s = "acn") as -> by (by apply Hs). split.
        -- split; [intros _; split; [by apply Hbasis|by right]|].
           intros _. eexists. by split.
        -- intros Hno. exfalso. apply Hno. split; [by apply Hbasis|by right].
      * assert (s ≠ "acn") as Hne.
        { intros Hacn. apply Hs in Hacn. by destruct Hacn. }
        split.
        -- split; [by intros (cfg & [=] & _)|].
           intros [_ [[=]|[=]]]. done.
        -- intros _. by eexists.
    + split.
      * split; [intros _; split; [by apply Hbasis|by left]|].
        intros _. eexists. by split.
      * intros Hno. exfalso. apply Hno. split; [by apply Hbasis|by left].
  - assert (basis ∉ ["TZVP-GTH"; "DZVP-GTH"; "SZV-GTH"]) as Hno.
    { intros Hin. apply Hbasis in Hin. by destruct Hin. }
    split.
    + split; [by intros (cfg & [=] & _)|]. by intros [? _].
    + intros _. by eexists.
Qed.

Lemma cp2k_configuration_or_assertion_witness :
  ((∃ cfg, create_configuration (H := example_environment) example_simulator
             "cp2k_blyp_dzvp" "3" 0 (Some "acn") [] = Returned cfg
           ∧ value_item "name" cfg = Some (VStr "cp2k"))
   ↔ str_upper (str_last (str_split underscore "cp2k_blyp_dzvp") +:+ "-GTH")
       ∈ ["TZVP-GTH"; "DZVP-GTH"; "SZV-GTH"]
     ∧ (Some "acn" = None ∨ Some "acn" = Some "acn"))
  ∧ (¬ (str_upper (str_last (str_split underscore "cp2k_blyp_dzvp") +:+ "-GTH")
          ∈ ["TZVP-GTH"; "DZVP-GTH"; "SZV-GTH"]
        ∧ (Some "acn" = None ∨ Some "acn" = Some "acn"))
     → ∃ msg, create_configuration (H := example_environment) example_simulator
                "cp2k_blyp_dzvp" "3" 0 (Some "acn") []
              = Failed (RaisedAssertionError msg)).
Proof.
  apply (cp2k_configuration_or_assertion (H := example_environment) example_simulator
           "cp2k_blyp_dzvp" "3" 0 (Some "acn") []).
  reflexivity.
Defined.
